(** * download_model.py: fetch, extract, rename, clean up

    A shallow embedding of [src/download_model.py] and the properties of
    its specification.

    The script is a straight line of statements over the file system and
    the standard output.  Its statements are embedded as computations in a
    state-and-exception monad; the state holds the tree below the assets
    directory and the lines printed so far.  The calls it makes into the
    Python standard library ([urllib.request.urlretrieve],
    [zipfile.ZipFile], [os.listdir], [shutil.move], [os.remove]) are
    modelled after CPython's behaviour on a POSIX system, restricted to
    regular files and directories (no symbolic links, no permissions, no
    disk limits).  File names are strings of one-byte characters.  The
    extraction is also described on a whole file system that holds the
    assets directory at some path, and related to its effect on the state
    of the script. *)

From stdpp Require Import base gmap strings list fin_maps.
From Stdlib Require Import Strings.String Strings.Ascii Strings.Byte.

Local Open Scope string_scope.
Local Set Warnings "-register-all".

(** ** Python string operations used by the script *)

Module PyStr.

(** [s.endswith(suf)]: some tail of [s] is [suf]. *)
Fixpoint endswith (s suf : string) : bool :=
  String.eqb s suf ||
  match s with
  | EmptyString => false
  | String _ r => endswith r suf
  end.

(** [x in s] for strings: [x] starts at some position of [s]. *)
Fixpoint contains (x s : string) : bool :=
  String.prefix x s ||
  match s with
  | EmptyString => false
  | String _ r => contains x r
  end.

Definition lower_char (c : ascii) : ascii :=
  let n := nat_of_ascii c in
  if (65 <=? n)%nat && (n <=? 90)%nat then ascii_of_nat (n + 32) else c.

(** [s.lower()] on one-byte characters. *)
Fixpoint lower (s : string) : string :=
  match s with
  | EmptyString => EmptyString
  | String c r => String (lower_char c) (lower r)
  end.

(** [s.split("/")]: the components between slashes, empty ones included;
    the empty string has the single component [""]. *)
Fixpoint split_slash (s : string) : list string :=
  match s with
  | EmptyString => [EmptyString]
  | String c r =>
      if Ascii.eqb c "/" then EmptyString :: split_slash r
      else match split_slash r with
           | hd :: tl => String c hd :: tl
           | [] => [String c EmptyString]
           end
  end.

Definition startswith_slash (s : string) : bool :=
  match s with
  | String c _ => Ascii.eqb c "/"
  | EmptyString => false
  end.

(** [os.path.join(a, b)] of posixpath. *)
Definition path_join (a b : string) : string :=
  if startswith_slash b then b
  else if String.eqb a "" || endswith a "/" then a ++ b
  else a ++ "/" ++ b.

End PyStr.

(** ** Files, archives and the assets directory *)

(** One member of an archive: its [ZipInfo.filename], as [zipfile]
    reports it, and its bytes. *)
Record ZipInfo := { filename : string; data : list byte }.

(** The content of a regular file.  [Zip ms] is the byte content of a
    well-formed ZIP archive with the members [ms], in archive order.
    [Damaged before bad after] is content whose central directory parses,
    so that [zipfile] opens it, with the members [before ++ bad :: after],
    of which [bad] fails the check of its stored data when it is read; the
    [data] of [bad] are the bytes that reach its file before the check
    fails.  [Raw b] is any other content: [zipfile] does not open it. *)
Inductive blob :=
| Raw (b : list byte)
| Zip (members : list ZipInfo)
| Damaged (before : list ZipInfo) (bad : ZipInfo) (after : list ZipInfo).

(** An entry of a directory: a regular file or a sub-directory. *)
Inductive node :=
| File (c : blob)
| Dir (children : gmap string node).

(** The path [ASSETS_DIR] before the script runs: absent, a regular file
    ([Blocked]), below a regular file ([BlockedParent]), or a directory. *)
Inductive target :=
| Missing
| Blocked
| BlockedParent
| Present (d : gmap string node).

(** What the server at [MODEL_URL] does with the request. *)
Inductive response :=
| Unreachable
| Interrupted (partial : list byte)
| Fetched (body : blob).

(** The exceptions the library calls raise. *)
Inductive exn :=
| URLError
| ContentTooShortError
| BadZipFile
| FileExistsError
| FileNotFoundError
| IsADirectoryError
| NotADirectoryError
| ShutilError
| KeyError.

(** Names inside [ASSETS_DIR]; the path [os.path.join(ASSETS_DIR, n)] is
    represented by [n]. *)
Definition ZIP_NAME : string := "model.zip".
Definition MODEL_NAME : string := "ssd_mobilenet_v1.tflite".
Definition LABELS_NAME : string := "labelmap.txt".

(** [here] is [os.path.dirname(__file__)]. *)
Definition ASSETS_DIR (here : string) : string :=
  PyStr.path_join (PyStr.path_join (PyStr.path_join (PyStr.path_join here "app") "src") "main") "assets".

Definition ZIP_PATH (here : string) : string :=
  PyStr.path_join (ASSETS_DIR here) ZIP_NAME.

(** ** The monad of statements *)

Record state := State { fs : gmap string node; stdout : list string }.

Definition M (A : Type) : Type := state → (exn + A) * state.

Definition ret {A} (a : A) : M A := λ s, (inr a, s).
Definition raise {A} (e : exn) : M A := λ s, (inl e, s).
Definition bind {A B} (m : M A) (k : A → M B) : M B :=
  λ s, match m s with
       | (inl e, s') => (inl e, s')
       | (inr a, s') => k a s'
       end.

Notation "'let*' x ':=' m 'in' k" := (bind m (λ x, k))
  (at level 10, x name, m at level 100, k at level 200, only parsing).
Notation "m >> k" := (bind m (λ _, k)) (at level 61, left associativity).

Definition get_fs : M (gmap string node) := λ s, (inr (fs s), s).
Definition put_fs (d : gmap string node) : M unit :=
  λ s, (inr tt, State d (stdout s)).

(** [print(line)] *)
Definition print (line : string) : M unit :=
  λ s, (inr tt, State (fs s) (stdout s ++ [line])).

(** [for x in l: body(x)] *)
Fixpoint for_each {A} (l : list A) (body : A → M unit) : M unit :=
  match l with
  | [] => ret tt
  | x :: r => body x >> for_each r body
  end.

(** ** The library calls *)

(** [urllib.request.urlretrieve(MODEL_URL, ZIP_PATH)]: the URL is opened
    first, then the file is opened for writing and the body copied. *)
Definition urlretrieve (resp : response) : M unit :=
  match resp with
  | Unreachable => raise URLError
  | Interrupted partial =>
      let* d := get_fs in
      match d !! ZIP_NAME with
      | Some (Dir _) => raise IsADirectoryError
      | _ => put_fs (<[ZIP_NAME := File (Raw partial)]> d) >> raise ContentTooShortError
      end
  | Fetched body =>
      let* d := get_fs in
      match d !! ZIP_NAME with
      | Some (Dir _) => raise IsADirectoryError
      | _ => put_fs (<[ZIP_NAME := File body]> d)
      end
  end.

(** The members of an opened archive, in archive order, each with a mark:
    [true] when its stored data can be read. *)
Definition intact (ms : list ZipInfo) : list (ZipInfo * bool) :=
  map (λ m, (m, true)) ms.

(** [zipfile.ZipFile(ZIP_PATH, 'r')]: the constructor reads the central
    directory and gives the members of the archive. *)
Definition ZipFile : M (list (ZipInfo * bool)) :=
  let* d := get_fs in
  match d !! ZIP_NAME with
  | None => raise FileNotFoundError
  | Some (Dir _) => raise IsADirectoryError
  | Some (File (Raw _)) => raise BadZipFile
  | Some (File (Zip ms)) => ret (intact ms)
  | Some (File (Damaged before bad after)) =>
      ret (intact before ++ (bad, false) :: intact after)%list
  end.

(** [ZipFile.namelist()] *)
Definition namelist (z : list (ZipInfo * bool)) : list string :=
  map (λ e, filename e.1) z.

(** [ZipFile.getinfo(name)]: the last member of that name. *)
Fixpoint getinfo (z : list (ZipInfo * bool)) (name : string) : option (ZipInfo * bool) :=
  match z with
  | [] => None
  | e :: r =>
      match getinfo r name with
      | Some x => Some x
      | None => if String.eqb (filename e.1) name then Some e else None
      end
  end.

(** [ZipFile._extract_member]: the member name is split at the slashes
    and the components [""], ["."] and [".."] are dropped. *)
Definition invalid_path_part (x : string) : bool :=
  String.eqb x "" || String.eqb x "." || String.eqb x "..".

Definition arcname_parts (name : string) : list string :=
  List.filter (λ x, negb (invalid_path_part x)) (PyStr.split_slash name).

(** [ZipInfo.is_dir()] *)
Definition is_dir (m : ZipInfo) : bool := PyStr.endswith (filename m) "/".

(** Writing a member's bytes at a path below a directory: missing upper
    directories are created ([os.makedirs]), then the file is opened for
    writing. *)
Fixpoint write_file (path : list string) (c : blob) (d : gmap string node)
  : exn + gmap string node :=
  match path with
  | [] => inl IsADirectoryError
  | [n] =>
      match d !! n with
      | Some (Dir _) => inl IsADirectoryError
      | _ => inr (<[n := File c]> d)
      end
  | n :: rest =>
      match d !! n with
      | Some (File _) => inl NotADirectoryError
      | Some (Dir sub) =>
          match write_file rest c sub with
          | inl e => inl e
          | inr sub' => inr (<[n := Dir sub']> d)
          end
      | None =>
          match write_file rest c ∅ with
          | inl e => inl e
          | inr sub' => inr (<[n := Dir sub']> d)
          end
      end
  end.

(** A directory member: upper directories and the directory itself are
    created unless they exist. *)
Fixpoint make_dir (path : list string) (d : gmap string node)
  : exn + gmap string node :=
  match path with
  | [] => inr d
  | n :: rest =>
      match d !! n with
      | Some (File _) =>
          inl (match rest with [] => FileExistsError | _ => NotADirectoryError end)
      | Some (Dir sub) =>
          match make_dir rest sub with
          | inl e => inl e
          | inr sub' => inr (<[n := Dir sub']> d)
          end
      | None =>
          match make_dir rest ∅ with
          | inl e => inl e
          | inr sub' => inr (<[n := Dir sub']> d)
          end
      end
  end.

Definition extract_member (m : ZipInfo) : M unit :=
  let* d := get_fs in
  let r := if is_dir m then make_dir (arcname_parts (filename m)) d
           else write_file (arcname_parts (filename m)) (Raw (data m)) d in
  match r with
  | inl e => raise e
  | inr d' => put_fs d'
  end.

(** A file member whose stored data fail their check: the file is opened
    for writing, the bytes read before the failure are copied, and the read
    raises [BadZipFile]. *)
Definition extract_damaged (m : ZipInfo) : M unit :=
  let* d := get_fs in
  match write_file (arcname_parts (filename m)) (Raw (data m)) d with
  | inl e => raise e
  | inr d' => put_fs d' >> raise BadZipFile
  end.

(** A directory member is created without reading any data. *)
Definition extract_entry (e : ZipInfo * bool) : M unit :=
  if e.2 || is_dir e.1 then extract_member e.1 else extract_damaged e.1.

(** [ZipFile._extract_member(name)]: the name is resolved with [getinfo]. *)
Definition extract_name (z : list (ZipInfo * bool)) (name : string) : M unit :=
  match getinfo z name with
  | None => raise KeyError
  | Some e => extract_entry e
  end.

(** [z.extractall(ASSETS_DIR)]: every name of [namelist()], in order. *)
Definition extract_names (z : list (ZipInfo * bool)) : M unit :=
  for_each (namelist z) (extract_name z).

(** [extractall] of a well-formed archive. *)
Definition extractall (ms : list ZipInfo) : M unit :=
  extract_names (intact ms).

(** [os.listdir(ASSETS_DIR)]: the names of the entries, in the order
    [scan] that the file system yields them. *)
Definition listdir (scan : gmap string node → list string) : M (list string) :=
  let* d := get_fs in ret (scan d).

(** [shutil.move(src, dst)] for [src] and [dst] both directly inside
    [ASSETS_DIR]. *)
Definition shutil_move (f dst : string) : M unit :=
  let* d := get_fs in
  match d !! dst with
  | Some (Dir sub) =>
      if String.eqb f dst then ret tt
      else match sub !! f with
           | Some _ => raise ShutilError
           | None =>
               match d !! f with
               | Some x => put_fs (<[dst := Dir (<[f := x]> sub)]> (delete f d))
               | None => raise FileNotFoundError
               end
           end
  | other =>
      match d !! f with
      | None => raise FileNotFoundError
      | Some (File c) => put_fs (<[dst := File c]> (delete f d))
      | Some (Dir sub) =>
          match other with
          | None => put_fs (<[dst := Dir sub]> (delete f d))
          | Some _ => raise FileExistsError
          end
      end
  end.

(** [os.remove(ZIP_PATH)] *)
Definition os_remove (n : string) : M unit :=
  let* d := get_fs in
  match d !! n with
  | None => raise FileNotFoundError
  | Some (Dir _) => raise IsADirectoryError
  | Some (File _) => put_fs (delete n d)
  end.

(** ** The script *)

Definition MSG_DOWNLOADING : string := "Downloading SSD MobileNet V1 TFLite model...".
Definition MSG_DOWNLOADED : string := "Download complete.".
Definition MSG_EXTRACTING : string := "Extracting model files...".
Definition MSG_DONE : string := "Done! Model and labels are ready in the assets/ folder.".

(** The two tests of the loop body. *)
Definition is_model (f : string) : bool := PyStr.endswith f ".tflite".
Definition is_label (f : string) : bool :=
  PyStr.contains "label" (PyStr.lower f) && PyStr.endswith f ".txt".

(** The body of the [for f in os.listdir(ASSETS_DIR)] loop. *)
Definition rename_body (here : string) (f : string) : M unit :=
  if is_model f then
    shutil_move f MODEL_NAME >>
    print ("Model saved as: " ++ PyStr.path_join (ASSETS_DIR here) MODEL_NAME)
  else if is_label f then
    shutil_move f LABELS_NAME >>
    print ("Labels saved as: " ++ PyStr.path_join (ASSETS_DIR here) LABELS_NAME)
  else ret tt.

Definition extract_step : M unit :=
  let* z := ZipFile in extract_names z.

Definition rename_step (here : string) (scan : gmap string node → list string) : M unit :=
  let* names := listdir scan in for_each names (rename_body here).

Definition cleanup_step : M unit := os_remove ZIP_NAME.

(** The statements after [os.makedirs], in program order. *)
Definition statements (here : string) (scan : gmap string node → list string)
    (resp : response) : list (M unit) :=
  [ print MSG_DOWNLOADING;
    urlretrieve resp;
    print MSG_DOWNLOADED;
    print MSG_EXTRACTING;
    extract_step;
    rename_step here scan;
    cleanup_step;
    print MSG_DONE ].

Fixpoint exec (stmts : list (M unit)) : M unit :=
  match stmts with
  | [] => ret tt
  | s :: r => s >> exec r
  end.

(** How the interpreter exits: normally, or with the traceback of an
    exception that nothing caught. *)
Inductive status :=
| Exit0
| Uncaught (e : exn).

Record outcome := Outcome { exit : status; final : target; printed : list string }.

(** [os.makedirs(ASSETS_DIR, exist_ok=True)] *)
Definition makedirs (t : target) : exn + gmap string node :=
  match t with
  | Missing => inr ∅
  | Blocked => inl FileExistsError
  | BlockedParent => inl NotADirectoryError
  | Present d => inr d
  end.

(** One run of the script. *)
Definition run (here : string) (scan : gmap string node → list string)
    (resp : response) (t : target) : outcome :=
  match makedirs t with
  | inl e => Outcome (Uncaught e) t []
  | inr d =>
      match exec (statements here scan resp) (State d []) with
      | (inl e, s) => Outcome (Uncaught e) (Present (fs s)) (stdout s)
      | (inr _, s) => Outcome Exit0 (Present (fs s)) (stdout s)
      end
  end.

(** The enumeration orders a file system may use: each lists every entry
    of the directory once. *)
Definition enumeration (scan : gmap string node → list string) : Prop :=
  ∀ d : gmap string node, scan d ≡ₚ elements (dom d).

Definition lookup_target (t : target) (n : string) : option node :=
  match t with
  | Present d => d !! n
  | _ => None
  end.

(** Two concrete orders, for running the script on examples. *)
Definition scan_up (d : gmap string node) : list string := elements (dom d).

Definition scan_down (d : gmap string node) : list string := rev (elements (dom d)).

Definition bytes_of (s : string) : list byte := list_byte_of_string s.

(** ** Notions used in the statements *)

(** A directory that holds regular files only. *)
Definition regular (d : gmap string node) : Prop :=
  ∀ n x, d !! n = Some x → ∃ c, x = File c.

(** Whether a name contains a slash. *)
Fixpoint has_slash (s : string) : bool :=
  match s with
  | EmptyString => false
  | String c r => Ascii.eqb c "/" || has_slash r
  end.

(** A member that extracts to a regular file directly inside the target
    directory: its name is a single path component (no slash, and not
    [""], ["."] or [".."]), and it is not the archive that is being read.
    An archive with a member that extracts onto model.zip would overwrite
    the file it is read from; what the library does then depends on how much
    of the archive it has buffered, and the statements below leave that case
    out. *)
Definition plain_name (n : string) : bool :=
  negb (has_slash n) && negb (invalid_path_part n) && negb (String.eqb n ZIP_NAME).

Definition plain (m : ZipInfo) : bool := plain_name (filename m).

(** The bytes that extraction leaves at the name [g]: those of the last
    member called [g]. *)
Fixpoint member_data (ms : list ZipInfo) (g : string) : option (list byte) :=
  match ms with
  | [] => None
  | m :: r =>
      match member_data r g with
      | Some x => Some x
      | None => if String.eqb (filename m) g then Some (data m) else None
      end
  end.

(** The directory after extracting members that are all plain. *)
Definition unpack (ms : list ZipInfo) (d : gmap string node) : gmap string node :=
  foldl (λ acc m, <[filename m := File (Raw (data m))]> acc) d ms.

(** The directory after extracting the names [ns] of an archive of plain
    members [ms]: each name receives the bytes of the last member of that
    name. *)
Definition fill_names (ms : list ZipInfo) (ns : list string)
    (d : gmap string node) : gmap string node :=
  foldl (λ acc n, match member_data ms n with
                  | Some x => <[n := File (Raw x)]> acc
                  | None => acc
                  end) d ns.

(** The last name of an enumeration that satisfies a test. *)
Definition last_match (p : string → bool) (l : list string) : option string :=
  list.last (List.filter p l).

(** The names whose move changes the canonical entry: those that pass
    the rule and are not the canonical name already. *)
Definition moved_to_model (f : string) : bool :=
  is_model f && negb (String.eqb f MODEL_NAME).

Definition moved_to_labels (f : string) : bool :=
  is_label f && negb (String.eqb f LABELS_NAME).

(** The last character of a string. *)
Fixpoint last_char (s : string) : option ascii :=
  match s with
  | EmptyString => None
  | String c r => match last_char r with Some x => Some x | None => Some c end
  end.

(** A statement of a list fails with [e] when the ones before it have
    succeeded. *)
Inductive step_fails : list (M unit) → state → exn → Prop :=
| fails_here st r s e s' :
    st s = (inl e, s') → step_fails (st :: r) s e
| fails_later st r s s1 e :
    st s = (inr tt, s1) → step_fails r s1 e → step_fails (st :: r) s e.

(** What the loop leaves behind, in terms of the directory [d] it started
    from and the enumeration [l] it walked. *)
Definition loop_result (d : gmap string node) (l : list string)
    (d' : gmap string node) : Prop :=
  d' !! MODEL_NAME
  = match last_match moved_to_model l with
    | Some f => d !! f
    | None => d !! MODEL_NAME
    end
  ∧ d' !! LABELS_NAME
    = match last_match moved_to_labels l with
      | Some f => d !! f
      | None => d !! LABELS_NAME
      end
  ∧ ∀ g, g ≠ MODEL_NAME → g ≠ LABELS_NAME →
      d' !! g = if (is_model g || is_label g) && bool_decide (g ∈ l)
                then None else d !! g.

(** The directory in which the loop starts. *)
Definition extracted (ms : list ZipInfo) (d0 : gmap string node) : gmap string node :=
  unpack ms (<[ZIP_NAME := File (Zip ms)]> d0).

(** The starting directories in which only the canonical names pass the
    two rules. *)
Definition tidy (d0 : gmap string node) : Prop :=
  ∀ g, is_Some (d0 !! g) →
       (is_model g = true → g = MODEL_NAME) ∧ (is_label g = true → g = LABELS_NAME).

(** The directory a successful run leaves, entry by entry. *)
Definition settled (ms : list ZipInfo) (d0 : gmap string node) (ma mb : ZipInfo)
    (F : gmap string node) : Prop :=
  ∀ g, F !! g =
       if String.eqb g MODEL_NAME then Some (File (Raw (data ma)))
       else if String.eqb g LABELS_NAME then Some (File (Raw (data mb)))
       else if String.eqb g ZIP_NAME then None
       else if is_model g || is_label g then None
       else match member_data ms g with
            | Some x => Some (File (Raw x))
            | None => d0 !! g
            end.

(** The archive of the specification's scenario. *)
Definition scenario_archive : list ZipInfo :=
  [ {| filename := "detect.tflite"; data := bytes_of "model" |};
    {| filename := "labelmap.txt"; data := bytes_of "labels" |} ].

(** The same two files, packed below a folder. *)
Definition nested_archive : list ZipInfo :=
  [ {| filename := "models/detect.tflite"; data := bytes_of "model" |};
    {| filename := "models/labelmap.txt"; data := bytes_of "labels" |} ].

(** A folder whose name ends in ".tflite"; no member name does. *)
Definition directory_archive : list ZipInfo :=
  [ {| filename := "export.tflite/weights.bin"; data := bytes_of "w" |} ].

(** A file whose member name ends in "/." and so not in ".tflite";
    extraction drops the "." and writes the file weights.tflite. *)
Definition dotted_archive : list ZipInfo :=
  [ {| filename := "weights.tflite/."; data := bytes_of "w" |} ].

(** A label file, and a folder that has the canonical label name and
    holds a file of the same name as the first. *)
Definition clash_archive : list ZipInfo :=
  [ {| filename := "labels.txt"; data := bytes_of "a" |};
    {| filename := "labelmap.txt/labels.txt"; data := bytes_of "b" |} ].

(** One model file, and one label file below a folder that has the
    canonical model name. *)
Definition rerun_archive : list ZipInfo :=
  [ {| filename := "detect.tflite"; data := bytes_of "model" |};
    {| filename := "ssd_mobilenet_v1.tflite/labelmap.txt"; data := bytes_of "labels" |} ].

(** A directory with two model files. *)
Definition two_models : gmap string node :=
  <["a.tflite" := File (Raw (bytes_of "A"))]>
    (<["b.tflite" := File (Raw (bytes_of "B"))]> ∅).

(** The completion message has not been printed. *)
Definition no_done (s : state) : Prop := MSG_DONE ∉ stdout s.

(** The statements before the closing message. *)
Definition body_statements (here : string) (scan : gmap string node → list string)
    (resp : response) : list (M unit) :=
  [ print MSG_DOWNLOADING;
    urlretrieve resp;
    print MSG_DOWNLOADED;
    print MSG_EXTRACTING;
    extract_step;
    rename_step here scan;
    cleanup_step ].


(** An archive without a model and without labels. *)
Definition readme_archive : list ZipInfo :=
  [ {| filename := "readme.md"; data := bytes_of "r" |} ].













(** The statements before the clean-up. *)
Definition before_cleanup (here : string) (scan : gmap string node → list string)
    (resp : response) : list (M unit) :=
  [ print MSG_DOWNLOADING;
    urlretrieve resp;
    print MSG_DOWNLOADED;
    print MSG_EXTRACTING;
    extract_step;
    rename_step here scan ].

(** The statements before the loop. *)
Definition before_rename (resp : response) : list (M unit) :=
  [ print MSG_DOWNLOADING;
    urlretrieve resp;
    print MSG_DOWNLOADED;
    print MSG_EXTRACTING;
    extract_step ].

(** The archive is in the target directory, as a regular file. *)
Definition has_zip (s : state) : Prop := ∃ c, fs s !! ZIP_NAME = Some (File c).

(** The members that a response brings, when it is a ZIP archive. *)
Definition members_of (resp : response) : list ZipInfo :=
  match resp with
  | Fetched (Zip ms) => ms
  | Fetched (Damaged before bad after) => (before ++ bad :: after)%list
  | _ => []
  end.

(** The line the loop body prints for a name that passes a rule. *)
Definition save_message (here : string) (f : string) : string :=
  if is_model f
  then "Model saved as: " ++ PyStr.path_join (ASSETS_DIR here) MODEL_NAME
  else "Labels saved as: " ++ PyStr.path_join (ASSETS_DIR here) LABELS_NAME.


(** * Properties *)

(** ** The monad *)

Lemma bind_ok {A B} (m : M A) (k : A → M B) s a s' :
  m s = (inr a, s') → bind m k s = k a s'.
Proof. intros H. unfold bind. by rewrite H. Qed.

Lemma bind_err {A B} (m : M A) (k : A → M B) s e s' :
  m s = (inl e, s') → bind m k s = (inl e, s').
Proof. intros H. unfold bind. by rewrite H. Qed.

Ltac monad_unfold :=
  unfold bind, ret, raise, get_fs, put_fs, print in *; simpl in *.

(** ** Strings *)

Lemma endswith_nil suf :
  PyStr.endswith "" suf = (String.eqb "" suf || false).
Proof. done. Qed.

Lemma endswith_cons c r suf :
  PyStr.endswith (String c r) suf = (String.eqb (String c r) suf || PyStr.endswith r suf).
Proof. done. Qed.

Lemma endswith_suffix s suf :
  PyStr.endswith s suf = true ↔ ∃ p, s = (p ++ suf)%string.
Proof.
  split.
  - induction s as [|c r IH]; intros H.
    + rewrite endswith_nil, orb_false_r in H. apply String.eqb_eq in H.
      exists "". by subst.
    + rewrite endswith_cons in H. apply orb_true_iff in H as [H|H].
      * apply String.eqb_eq in H. exists "". by subst.
      * destruct (IH H) as [p ->]. by exists (String c p).
  - intros [p ->]. induction p as [|c p IH].
    + change (("" ++ suf)%string) with suf. destruct suf.
      * done.
      * by rewrite endswith_cons, String.eqb_refl.
    + change ((String c p ++ suf)%string) with (String c (p ++ suf)).
      by rewrite endswith_cons, IH, orb_true_r.
Qed.

Lemma endswith_last_char s suf c :
  PyStr.endswith s suf = true → last_char suf = Some c → last_char s = Some c.
Proof.
  induction s as [|a r IH]; intros H Hc.
  - rewrite endswith_nil, orb_false_r in H. apply String.eqb_eq in H. by subst.
  - rewrite endswith_cons in H. apply orb_true_iff in H as [H|H].
    + apply String.eqb_eq in H. by subst.
    + simpl. by rewrite (IH H Hc).
Qed.

Lemma model_not_label f : is_model f = true → is_label f = false.
Proof.
  unfold is_model, is_label. intros H.
  destruct (PyStr.endswith f ".txt") eqn:E; [|by rewrite andb_false_r].
  pose proof (endswith_last_char _ _ "e"%char H eq_refl) as H1.
  pose proof (endswith_last_char _ _ "t"%char E eq_refl) as H2.
  congruence.
Qed.

Lemma label_not_model f : is_label f = true → is_model f = false.
Proof.
  intros H. destruct (is_model f) eqn:E; [|done].
  apply model_not_label in E. congruence.
Qed.

Lemma has_slash_split n : has_slash n = false → PyStr.split_slash n = [n].
Proof.
  induction n as [|c r IH]; simpl; [done|].
  intros H. apply orb_false_iff in H as [Hc Hr].
  rewrite Hc, (IH Hr). done.
Qed.

Lemma has_slash_endswith n : has_slash n = false → PyStr.endswith n "/" = false.
Proof.
  intros H. destruct (PyStr.endswith n "/") eqn:E; [|done].
  apply endswith_suffix in E as [p ->]. exfalso.
  induction p as [|c p IH]; simpl in H; [done|].
  apply orb_false_iff in H as [_ H]. auto.
Qed.

Lemma plain_parts n : plain_name n = true → arcname_parts n = [n].
Proof.
  unfold plain_name, arcname_parts. intros H.
  apply andb_true_iff in H as [H _]. apply andb_true_iff in H as [H1 H2].
  apply negb_true_iff in H1. rewrite (has_slash_split _ H1). simpl.
  by rewrite H2.
Qed.

Lemma plain_not_dir m : plain m = true → is_dir m = false.
Proof.
  unfold plain, plain_name, is_dir. intros H.
  apply andb_true_iff in H as [H _]. apply andb_true_iff in H as [H1 _].
  apply negb_true_iff in H1. by apply has_slash_endswith.
Qed.

Lemma plain_not_zip n : plain_name n = true → n ≠ ZIP_NAME.
Proof.
  unfold plain_name. intros H Heq.
  apply andb_true_iff in H as [_ H]. apply negb_true_iff in H.
  apply String.eqb_neq in H. done.
Qed.

Lemma model_name_is_model : is_model MODEL_NAME = true.
Proof. reflexivity. Qed.

Lemma labels_name_is_label : is_label LABELS_NAME = true.
Proof. reflexivity. Qed.

(** ** shutil.move and the loop body *)

(** A move touches the source and the destination names only. *)
Lemma shutil_move_frame f dst s g :
  g ≠ f → g ≠ dst → fs (shutil_move f dst s).2 !! g = fs s !! g.
Proof.
  intros Hf Hd. unfold shutil_move. monad_unfold.
  destruct (fs s !! dst) as [[c|sub]|] eqn:Ed.
  - destruct (fs s !! f) as [[c'|sub']|]; simpl; try done.
    by rewrite lookup_insert_ne, lookup_delete_ne.
  - destruct (String.eqb f dst); [done|].
    destruct (sub !! f); [done|].
    destruct (fs s !! f); simpl; [|done].
    by rewrite lookup_insert_ne, lookup_delete_ne.
  - destruct (fs s !! f) as [[c'|sub']|]; simpl; try done;
      by rewrite lookup_insert_ne, lookup_delete_ne.
Qed.

Lemma shutil_move_stdout f dst s : stdout (shutil_move f dst s).2 = stdout s.
Proof.
  unfold shutil_move. monad_unfold.
  destruct (fs s !! dst) as [[c|sub]|].
  - by destruct (fs s !! f) as [[c'|sub']|].
  - destruct (String.eqb f dst); [done|].
    destruct (sub !! f); [done|]. by destruct (fs s !! f).
  - by destruct (fs s !! f) as [[c'|sub']|].
Qed.

(** Moving a regular file onto a name that holds no directory renames
    it, replacing what was there. *)
Lemma shutil_move_file f dst d out c :
  regular d → d !! f = Some (File c) →
  shutil_move f dst (State d out)
  = (inr tt, State (<[dst := File c]> (delete f d)) out).
Proof.
  intros Hr Hf. unfold shutil_move. monad_unfold. rewrite Hf.
  destruct (d !! dst) as [[c'|sub]|] eqn:Ed; try done.
  by destruct (Hr _ _ Ed).
Qed.

Lemma regular_move f dst d c :
  regular d → regular (<[dst := File c]> (delete f d)).
Proof.
  intros Hr n x. rewrite lookup_insert. case_decide.
  - intros [= <-]. by eexists.
  - rewrite lookup_delete. case_decide; [done|]. apply Hr.
Qed.

Lemma rename_body_frame here f s g :
  is_model g = false → is_label g = false →
  fs (rename_body here f s).2 !! g = fs s !! g.
Proof.
  intros Hm Hl. unfold rename_body.
  destruct (is_model f) eqn:Em; [|destruct (is_label f) eqn:El]; [| |done].
  - unfold bind. destruct (shutil_move f MODEL_NAME s) as [[e|[]] s1] eqn:E;
      simpl; replace s1 with (shutil_move f MODEL_NAME s).2 by (by rewrite E);
      apply shutil_move_frame; intros ->;
      first [congruence | by vm_compute in Hm].
  - unfold bind. destruct (shutil_move f LABELS_NAME s) as [[e|[]] s1] eqn:E;
      simpl; replace s1 with (shutil_move f LABELS_NAME s).2 by (by rewrite E);
      apply shutil_move_frame; intros ->;
      first [congruence | by vm_compute in Hl].
Qed.

Lemma rename_loop_frame here l s g :
  is_model g = false → is_label g = false →
  fs (for_each l (rename_body here) s).2 !! g = fs s !! g.
Proof.
  intros Hm Hl. revert s. induction l as [|f l IH]; intros s; [done|].
  simpl. unfold bind at 1.
  destruct (rename_body here f s) as [[e|[]] s1] eqn:E.
  - simpl. replace s1 with (rename_body here f s).2 by (by rewrite E).
    by apply rename_body_frame.
  - rewrite IH. replace s1 with (rename_body here f s).2 by (by rewrite E).
    by apply rename_body_frame.
Qed.

(** C9: the classify-and-rename step leaves every entry whose name matches
    neither rule (it does not end in ".tflite", and it does not both contain
    "label" in any letter case and end in ".txt") where it is: after the
    step, whether it completed or raised, the name holds what it held
    before.  This holds for any directory and any enumeration order. *)
Theorem rename_step_leaves_unmatched here scan s g :
  is_model g = false → is_label g = false →
  fs (rename_step here scan s).2 !! g = fs s !! g.
Proof.
  intros Hm Hl. unfold rename_step, listdir.
  change (fs (for_each (scan (fs s)) (rename_body here) s).2 !! g = fs s !! g).
  by apply rename_loop_frame.
Qed.

Lemma rename_step_leaves_unmatched_witness :
  let d : gmap string node :=
    <["readme.md" := File (Raw (bytes_of "r"))]>
      (<["detect.tflite" := File (Raw (bytes_of "m"))]> ∅) in
  fs (rename_step "/repo" scan_up (State d [])).2 !! "readme.md"
  = Some (File (Raw (bytes_of "r"))).
Proof.
  intros d.
  rewrite (rename_step_leaves_unmatched "/repo" scan_up (State d []) "readme.md");
    [reflexivity | reflexivity | reflexivity].
Defined.

(** C10: the model rule is tested first.  For a name ending in ".tflite"
    the loop body is the move to the canonical model name followed by the
    model message, whatever else the name contains; the label rule does not
    hold of such a name, and the body leaves the entry labelmap.txt as it
    was. *)
Theorem model_rule_precedence here f s :
  is_model f = true →
  rename_body here f
  = (shutil_move f MODEL_NAME >>
     print ("Model saved as: " ++ PyStr.path_join (ASSETS_DIR here) MODEL_NAME))
  ∧ is_label f = false
  ∧ fs (rename_body here f s).2 !! LABELS_NAME = fs s !! LABELS_NAME.
Proof.
  intros Hm. split; [|split].
  - unfold rename_body. by rewrite Hm.
  - by apply model_not_label.
  - unfold rename_body. rewrite Hm. unfold bind.
    destruct (shutil_move f MODEL_NAME s) as [[e|[]] s1] eqn:E;
      simpl; replace s1 with (shutil_move f MODEL_NAME s).2 by (by rewrite E);
      apply shutil_move_frame; [| done | | done]; intros <-; done.
Qed.

Lemma model_rule_precedence_witness :
  PyStr.contains "label" (PyStr.lower "Labels.tflite") = true
  ∧ fs (rename_body "/repo" "Labels.tflite"
          (State (<["Labels.tflite" := File (Raw (bytes_of "m"))]> ∅) [])).2
       !! LABELS_NAME = None.
Proof.
  split; [reflexivity|].
  destruct (model_rule_precedence "/repo" "Labels.tflite"
              (State (<["Labels.tflite" := File (Raw (bytes_of "m"))]> ∅) [])
              eq_refl) as (_ & _ & ->).
  reflexivity.
Defined.

(** ** The loop on a directory of regular files *)

Lemma last_match_cons p f l :
  last_match p (f :: l)
  = match last_match p l with
    | Some x => Some x
    | None => if p f then Some f else None
    end.
Proof.
  unfold last_match. simpl. destruct (p f); [|by destruct (list.last _)].
  by rewrite last_cons.
Qed.

Lemma last_match_Some p l f :
  last_match p l = Some f → f ∈ l ∧ p f = true.
Proof.
  unfold last_match. intros H. apply last_Some_elem_of in H.
  apply list_elem_of_In, filter_In in H as [H1 H2].
  split; [by apply list_elem_of_In | done].
Qed.

Lemma last_match_None p l f :
  last_match p l = None → f ∈ l → p f = false.
Proof.
  unfold last_match. intros H Hin. apply last_None in H.
  destruct (p f) eqn:E; [|done].
  assert (In f (List.filter p l)) as Hf
    by (apply filter_In; split; [by apply list_elem_of_In | done]).
  rewrite H in Hf. destruct Hf.
Qed.

Lemma moved_to_model_spec f :
  moved_to_model f = true → is_model f = true ∧ f ≠ MODEL_NAME.
Proof.
  unfold moved_to_model. intros H. apply andb_true_iff in H as [H1 H2].
  apply negb_true_iff, String.eqb_neq in H2. done.
Qed.

Lemma moved_to_labels_spec f :
  moved_to_labels f = true → is_label f = true ∧ f ≠ LABELS_NAME.
Proof.
  unfold moved_to_labels. intros H. apply andb_true_iff in H as [H1 H2].
  apply negb_true_iff, String.eqb_neq in H2. done.
Qed.

Lemma model_ne_label f g : is_model f = true → is_label g = true → f ≠ g.
Proof. intros Hf Hg ->. apply model_not_label in Hf. congruence. Qed.

Lemma rename_body_model here f d out c :
  regular d → d !! f = Some (File c) → is_model f = true →
  ∃ out', rename_body here f (State d out)
          = (inr tt, State (<[MODEL_NAME := File c]> (delete f d)) out').
Proof.
  intros Hr Hf Hm. unfold rename_body. rewrite Hm.
  rewrite (bind_ok _ _ _ tt _ (shutil_move_file f MODEL_NAME d out c Hr Hf)).
  by eexists.
Qed.

Lemma rename_body_label here f d out c :
  regular d → d !! f = Some (File c) → is_label f = true →
  ∃ out', rename_body here f (State d out)
          = (inr tt, State (<[LABELS_NAME := File c]> (delete f d)) out').
Proof.
  intros Hr Hf Hl. unfold rename_body. rewrite (label_not_model _ Hl), Hl.
  rewrite (bind_ok _ _ _ tt _ (shutil_move_file f LABELS_NAME d out c Hr Hf)).
  by eexists.
Qed.

Lemma bool_decide_cons_ne (g f : string) l :
  g ≠ f → bool_decide (g ∈ f :: l) = bool_decide (g ∈ l).
Proof.
  intros H. apply bool_decide_ext. rewrite elem_of_cons.
  split; [by intros [?|?] | by right].
Qed.

Lemma rename_loop_regular here l :
  ∀ d out, regular d → NoDup l → (∀ f, f ∈ l → is_Some (d !! f)) →
  ∃ d' out',
    for_each l (rename_body here) (State d out) = (inr tt, State d' out')
    ∧ regular d' ∧ loop_result d l d'.
Proof.
  induction l as [|f l IH]; intros d out Hr Hnd Hin.
  - exists d, out. split; [done|]. split; [done|].
    repeat split; try done. intros g _ _. by rewrite andb_false_r.
  - apply NoDup_cons in Hnd as [Hfl Hnd].
    destruct (Hin f) as [x Hx]; [by left|].
    destruct (Hr _ _ Hx) as [c ->].
    assert (∀ dst, ∀ f', f' ∈ l →
              is_Some (<[dst := File c]> (delete f d) !! f')) as Hin1.
    { intros dst f' Hf'. rewrite lookup_insert. case_decide; [by eexists|].
      rewrite lookup_delete_ne by (intros ->; done). apply Hin. by right. }
    destruct (is_model f) eqn:Em; [|destruct (is_label f) eqn:El].
    + destruct (rename_body_model here f d out c Hr Hx Em) as [out1 Hb].
      destruct (IH _ out1 (regular_move f MODEL_NAME d c Hr) Hnd (Hin1 _))
        as (d' & out' & Hrun & Hr' & HM & HL & HO).
      exists d', out'. split; [|split; [done|]].
      { simpl. by rewrite (bind_ok _ _ _ tt _ Hb). }
      assert (moved_to_labels f = false) as Hml
        by (unfold moved_to_labels; by rewrite (model_not_label _ Em)).
      repeat split.
      * rewrite last_match_cons, HM.
        destruct (last_match moved_to_model l) as [f'|] eqn:E.
        -- apply last_match_Some in E as [E1 E2].
           apply moved_to_model_spec in E2 as [_ E2].
           rewrite lookup_insert_ne by done.
           rewrite lookup_delete_ne by (intros ->; done). done.
        -- rewrite lookup_insert_eq. unfold moved_to_model. rewrite Em. simpl.
           destruct (String.eqb_spec f MODEL_NAME) as [->|]; simpl; done.
      * rewrite last_match_cons, HL, Hml.
        destruct (last_match moved_to_labels l) as [f'|] eqn:E.
        -- apply last_match_Some in E as [E1 E2].
           apply moved_to_labels_spec in E2 as [E2 _].
           rewrite lookup_insert_ne
             by (apply model_ne_label; [reflexivity | done]).
           rewrite lookup_delete_ne by (intros ->; done). done.
        -- rewrite lookup_insert_ne by done.
           rewrite lookup_delete_ne
             by (apply model_ne_label; [done | reflexivity]). done.
      * intros g Hg1 Hg2. rewrite (HO g Hg1 Hg2).
        destruct (decide (g = f)) as [->|Hgf].
        -- rewrite (bool_decide_eq_false_2 _ Hfl), andb_false_r.
           rewrite Em. simpl. rewrite bool_decide_eq_true_2 by (by left).
           rewrite lookup_insert_ne by done. by rewrite lookup_delete_eq.
        -- rewrite (bool_decide_cons_ne _ _ _ Hgf).
           rewrite lookup_insert_ne by done. by rewrite lookup_delete_ne.
    + destruct (rename_body_label here f d out c Hr Hx El) as [out1 Hb].
      destruct (IH _ out1 (regular_move f LABELS_NAME d c Hr) Hnd (Hin1 _))
        as (d' & out' & Hrun & Hr' & HM & HL & HO).
      exists d', out'. split; [|split; [done|]].
      { simpl. by rewrite (bind_ok _ _ _ tt _ Hb). }
      assert (moved_to_model f = false) as Hmm
        by (unfold moved_to_model; by rewrite Em).
      repeat split.
      * rewrite last_match_cons, HM, Hmm.
        destruct (last_match moved_to_model l) as [f'|] eqn:E.
        -- apply last_match_Some in E as [E1 E2].
           apply moved_to_model_spec in E2 as [E2 _].
           rewrite lookup_insert_ne
             by (apply not_eq_sym, model_ne_label; [done | reflexivity]).
           rewrite lookup_delete_ne by (intros ->; done). done.
        -- rewrite lookup_insert_ne by done.
           rewrite lookup_delete_ne
             by (apply not_eq_sym, model_ne_label; [reflexivity | done]). done.
      * rewrite last_match_cons, HL.
        destruct (last_match moved_to_labels l) as [f'|] eqn:E.
        -- apply last_match_Some in E as [E1 E2].
           apply moved_to_labels_spec in E2 as [_ E2].
           rewrite lookup_insert_ne by done.
           rewrite lookup_delete_ne by (intros ->; done). done.
        -- rewrite lookup_insert_eq. unfold moved_to_labels. rewrite El. simpl.
           destruct (String.eqb_spec f LABELS_NAME) as [->|]; simpl; done.
      * intros g Hg1 Hg2. rewrite (HO g Hg1 Hg2).
        destruct (decide (g = f)) as [->|Hgf].
        -- rewrite (bool_decide_eq_false_2 _ Hfl), andb_false_r.
           rewrite Em, El. simpl. rewrite bool_decide_eq_true_2 by (by left).
           rewrite lookup_insert_ne by done. by rewrite lookup_delete_eq.
        -- rewrite (bool_decide_cons_ne _ _ _ Hgf).
           rewrite lookup_insert_ne by done. by rewrite lookup_delete_ne.
    + destruct (IH d out Hr Hnd) as (d' & out' & Hrun & Hr' & HM & HL & HO).
      { intros f' Hf'. apply Hin. by right. }
      exists d', out'. split; [|split; [done|]].
      { simpl. unfold rename_body. rewrite Em, El. done. }
      assert (moved_to_model f = false) as Hmm
        by (unfold moved_to_model; by rewrite Em).
      assert (moved_to_labels f = false) as Hml
        by (unfold moved_to_labels; by rewrite El).
      repeat split.
      * rewrite last_match_cons, HM, Hmm. by destruct (last_match moved_to_model l).
      * rewrite last_match_cons, HL, Hml. by destruct (last_match moved_to_labels l).
      * intros g Hg1 Hg2. rewrite (HO g Hg1 Hg2).
        destruct (decide (g = f)) as [->|Hgf].
        -- by rewrite Em, El.
        -- by rewrite (bool_decide_cons_ne _ _ _ Hgf).
Qed.

(** ** Extraction of plain members *)

Lemma regular_empty : regular ∅.
Proof. intros n x. by rewrite lookup_empty. Qed.

Lemma regular_insert n c d : regular d → regular (<[n := File c]> d).
Proof.
  intros Hr k x. rewrite lookup_insert. case_decide.
  - intros [= <-]. by eexists.
  - apply Hr.
Qed.

Lemma regular_delete n d : regular d → regular (delete n d).
Proof.
  intros Hr k x. rewrite lookup_delete. case_decide; [done|]. apply Hr.
Qed.

Lemma regular_unpack ms : ∀ d, regular d → regular (unpack ms d).
Proof.
  induction ms as [|m ms IH]; intros d Hr; [done|].
  apply IH. by apply regular_insert.
Qed.

Lemma extract_member_plain m d out :
  plain m = true → regular d →
  extract_member m (State d out)
  = (inr tt, State (<[filename m := File (Raw (data m))]> d) out).
Proof.
  intros Hp Hr. unfold extract_member. monad_unfold.
  rewrite (plain_not_dir _ Hp), (plain_parts _ Hp). simpl.
  destruct (d !! filename m) as [[c|sub]|] eqn:E; try done.
  by destruct (Hr _ _ E).
Qed.

Lemma unpack_lookup ms g :
  ∀ d, unpack ms d !! g
       = match member_data ms g with
         | Some x => Some (File (Raw x))
         | None => d !! g
         end.
Proof.
  induction ms as [|m ms IH]; intros d; [done|].
  change (unpack (m :: ms) d) with (unpack ms (<[filename m := File (Raw (data m))]> d)).
  rewrite IH. simpl. destruct (member_data ms g); [done|].
  destruct (String.eqb_spec (filename m) g) as [->|Hne].
  - by rewrite lookup_insert_eq.
  - by rewrite lookup_insert_ne.
Qed.

Lemma member_data_Some ms g x :
  member_data ms g = Some x → ∃ m, m ∈ ms ∧ filename m = g ∧ data m = x.
Proof.
  induction ms as [|m ms IH]; simpl; [done|].
  destruct (member_data ms g) as [y|].
  - intros [= <-]. destruct (IH eq_refl) as (m' & ? & ? & ?).
    exists m'. split; [by right | done].
  - destruct (String.eqb_spec (filename m) g); [|done].
    intros [= <-]. exists m. split; [by left | done].
Qed.

Lemma member_data_None ms g m :
  member_data ms g = None → m ∈ ms → filename m ≠ g.
Proof.
  induction ms as [|m' ms IH]; simpl; intros H Hin.
  - by apply elem_of_nil in Hin.
  - destruct (member_data ms g); [done|].
    apply elem_of_cons in Hin as [->|Hin]; [|by apply IH].
    by destruct (String.eqb_spec (filename m') g).
Qed.

Lemma getinfo_intact ms n :
  (getinfo (intact ms) n = None ∧ member_data ms n = None)
  ∨ ∃ m, getinfo (intact ms) n = Some (m, true) ∧ m ∈ ms
         ∧ filename m = n ∧ member_data ms n = Some (data m).
Proof.
  induction ms as [|m ms IH]; [by left|].
  simpl. destruct IH as [[-> ->]|(m' & -> & Hin & Hn & ->)].
  - destruct (String.eqb_spec (filename m) n) as [Hn|Hn]; [|by left].
    right. exists m. split; [done|]. split; [by left | done].
  - right. exists m'. split; [done|]. split; [by right | done].
Qed.

Lemma member_data_listed ms n :
  n ∈ map filename ms → is_Some (member_data ms n).
Proof.
  intros Hin. apply list_elem_of_fmap in Hin as (m & -> & Hm).
  destruct (member_data ms (filename m)) eqn:E; [by eexists|].
  by destruct (member_data_None _ _ _ E Hm).
Qed.

Lemma extract_name_plain ms n x d out :
  Forall (λ m, plain m = true) ms → regular d →
  member_data ms n = Some x →
  extract_name (intact ms) n (State d out)
  = (inr tt, State (<[n := File (Raw x)]> d) out).
Proof.
  intros Hp Hr Hx. unfold extract_name.
  destruct (getinfo_intact ms n) as [[_ Hn]|(m & -> & Hin & <- & Hd)];
    [congruence|].
  rewrite Hx in Hd. injection Hd as ->.
  unfold extract_entry. simpl.
  rewrite Forall_forall in Hp. by apply extract_member_plain; [apply Hp|].
Qed.

Lemma fill_names_lookup ms ns g :
  (∀ n, n ∈ ns → is_Some (member_data ms n)) →
  ∀ d, fill_names ms ns d !! g
       = match member_data ms g with
         | Some x => if bool_decide (g ∈ ns) then Some (File (Raw x)) else d !! g
         | None => d !! g
         end.
Proof.
  induction ns as [|n ns IH]; intros Hns d.
  - simpl. by destruct (member_data ms g).
  - destruct (Hns n) as [xn Hxn]; [by left|].
    change (fill_names ms (n :: ns) d)
      with (fill_names ms ns
              (match member_data ms n with
               | Some x => <[n := File (Raw x)]> d
               | None => d
               end)).
    rewrite Hxn, IH by (intros n' Hn'; apply Hns; by right).
    destruct (member_data ms g) as [x|] eqn:Eg.
    + destruct (decide (g = n)) as [->|Hne].
      * rewrite (bool_decide_eq_true_2 (n ∈ n :: ns)) by (by left).
        rewrite lookup_insert_eq. rewrite Hxn in Eg. injection Eg as ->.
        by case_bool_decide.
      * rewrite (bool_decide_cons_ne _ _ _ Hne), lookup_insert_ne by done. done.
    + rewrite lookup_insert_ne; [done|]. intros ->. congruence.
Qed.

Lemma fill_names_unpack ms d :
  fill_names ms (map filename ms) d = unpack ms d.
Proof.
  apply map_eq. intros g.
  rewrite fill_names_lookup by apply member_data_listed.
  rewrite unpack_lookup. destruct (member_data ms g) as [x|] eqn:E; [|done].
  rewrite bool_decide_eq_true_2; [done|].
  apply member_data_Some in E as (m & Hm & <- & _).
  apply list_elem_of_fmap. by exists m.
Qed.

Lemma regular_fill_names ms ns : ∀ d, regular d → regular (fill_names ms ns d).
Proof.
  induction ns as [|n ns IH]; intros d Hr; [done|].
  apply IH. destruct (member_data ms n); [by apply regular_insert | done].
Qed.

Lemma extract_names_plain ms ns :
  Forall (λ m, plain m = true) ms →
  (∀ n, n ∈ ns → is_Some (member_data ms n)) →
  ∀ d out, regular d →
  for_each ns (extract_name (intact ms)) (State d out)
  = (inr tt, State (fill_names ms ns d) out).
Proof.
  intros Hp. induction ns as [|n ns IH]; intros Hns d out Hr; [done|].
  destruct (Hns n) as [x Hx]; [by left|].
  simpl. rewrite (bind_ok _ _ _ tt _ (extract_name_plain ms n x d out Hp Hr Hx)).
  rewrite Hx. apply IH; [|by apply regular_insert].
  intros n' Hn'. apply Hns. by right.
Qed.

Lemma namelist_intact ms : namelist (intact ms) = map filename ms.
Proof. unfold namelist, intact. rewrite map_map. done. Qed.

Lemma extractall_plain ms :
  ∀ d out, Forall (λ m, plain m = true) ms → regular d →
  extractall ms (State d out) = (inr tt, State (unpack ms d) out).
Proof.
  intros d out Hp Hr. unfold extractall, extract_names.
  rewrite namelist_intact, <- fill_names_unpack.
  apply extract_names_plain; [done | apply member_data_listed | done].
Qed.

(** When exactly the member [ma] passes a test on names, the name of [ma]
    receives the bytes of [ma]. *)
Lemma member_data_only (p : string → bool) ms ma :
  List.filter (λ m, p (filename m)) ms = [ma] →
  member_data ms (filename ma) = Some (data ma).
Proof.
  intros Hf.
  assert (In ma (List.filter (λ m, p (filename m)) ms)) as Hin
    by (rewrite Hf; by left).
  apply filter_In in Hin as [Hin Hp].
  destruct (member_data ms (filename ma)) as [x|] eqn:E.
  - apply member_data_Some in E as (m & Hm & Hn & <-).
    assert (In m (List.filter (λ m, p (filename m)) ms)) as Hm'.
    { apply filter_In. split; [by apply list_elem_of_In | by rewrite Hn]. }
    rewrite Hf in Hm'. destruct Hm' as [<-|[]]. done.
  - exfalso. eapply member_data_None; [done | by apply list_elem_of_In | done].
Qed.

Lemma member_only_name (p : string → bool) ms ma m :
  List.filter (λ m, p (filename m)) ms = [ma] →
  m ∈ ms → p (filename m) = true → m = ma.
Proof.
  intros Hf Hin Hp.
  assert (In m (List.filter (λ m, p (filename m)) ms)) as Hm.
  { apply filter_In. split; [by apply list_elem_of_In | done]. }
  rewrite Hf in Hm. by destruct Hm as [<-|[]].
Qed.

(** ** One run on an archive of plain members *)

Lemma urlretrieve_fetched body d out :
  regular d →
  urlretrieve (Fetched body) (State d out)
  = (inr tt, State (<[ZIP_NAME := File body]> d) out).
Proof.
  intros Hr. unfold urlretrieve. monad_unfold.
  destruct (d !! ZIP_NAME) as [[c|sub]|] eqn:E; try done.
  by destruct (Hr _ _ E).
Qed.

Lemma enumeration_NoDup scan d : enumeration scan → NoDup (scan d).
Proof. intros H. rewrite (H d). apply NoDup_elements. Qed.

Lemma enumeration_elem scan d f :
  enumeration scan → f ∈ scan d ↔ is_Some (d !! f).
Proof. intros H. by rewrite (H d), elem_of_elements, elem_of_dom. Qed.

Lemma plain_member_data_zip ms :
  Forall (λ m, plain m = true) ms → member_data ms ZIP_NAME = None.
Proof.
  intros Hp. destruct (member_data ms ZIP_NAME) as [x|] eqn:E; [|done].
  apply member_data_Some in E as (m & Hm & Hn & _).
  rewrite Forall_forall in Hp. specialize (Hp m Hm).
  by apply plain_not_zip in Hp.
Qed.

Lemma run_plain here scan ms d0 :
  enumeration scan → Forall (λ m, plain m = true) ms → regular d0 →
  ∃ d' out,
    run here scan (Fetched (Zip ms)) (Present d0)
    = Outcome Exit0 (Present (delete ZIP_NAME d')) (out ++ [MSG_DONE])
    ∧ regular d'
    ∧ loop_result (extracted ms d0) (scan (extracted ms d0)) d'.
Proof.
  intros Hs Hp Hr.
  assert (regular (extracted ms d0)) as HrD
    by (by apply regular_unpack, regular_insert).
  destruct (rename_loop_regular here (scan (extracted ms d0)) (extracted ms d0)
              [MSG_DOWNLOADING; MSG_DOWNLOADED; MSG_EXTRACTING] HrD
              (enumeration_NoDup _ _ Hs))
    as (d' & out & Hloop & Hr' & Hres).
  { intros f. by rewrite enumeration_elem. }
  exists d', out. split; [|done].
  assert (d' !! ZIP_NAME = Some (File (Zip ms))) as Hz.
  { destruct Hres as (_ & _ & HO). rewrite (HO ZIP_NAME) by done.
    simpl. unfold extracted. rewrite unpack_lookup, plain_member_data_zip by done.
    by rewrite lookup_insert_eq. }
  unfold run, statements. simpl makedirs. cbn iota.
  cbn [exec]. unfold bind at 1. cbn [print fs stdout app].
  rewrite (bind_ok _ _ _ tt _ (urlretrieve_fetched _ _ _ Hr)).
  unfold bind at 1. cbn [print fs stdout app].
  unfold bind at 1. cbn [print fs stdout app].
  assert (extract_step (State (<[ZIP_NAME := File (Zip ms)]> d0)
            [MSG_DOWNLOADING; MSG_DOWNLOADED; MSG_EXTRACTING])
          = (inr tt, State (extracted ms d0)
               [MSG_DOWNLOADING; MSG_DOWNLOADED; MSG_EXTRACTING])) as He.
  { unfold extract_step, ZipFile. unfold bind at 1. unfold bind at 1.
    cbn [get_fs fs]. rewrite lookup_insert_eq. cbn [ret].
    apply extractall_plain; [done | by apply regular_insert]. }
  rewrite (bind_ok _ _ _ tt _ He).
  assert (rename_step here scan (State (extracted ms d0)
            [MSG_DOWNLOADING; MSG_DOWNLOADED; MSG_EXTRACTING])
          = (inr tt, State d' out)) as Hn.
  { unfold rename_step, listdir. unfold bind at 1. unfold bind at 1.
    cbn [get_fs fs ret]. exact Hloop. }
  rewrite (bind_ok _ _ _ tt _ Hn).
  assert (cleanup_step (State d' out) = (inr tt, State (delete ZIP_NAME d') out)) as Hc.
  { unfold cleanup_step, os_remove. monad_unfold. by rewrite Hz. }
  rewrite (bind_ok _ _ _ tt _ Hc).
  reflexivity.
Qed.

(** A rule [p] with canonical name [canon], one member [ma] that passes
    it, and a starting directory in which only [canon] passes it: the
    loop's source for [canon] holds the bytes of [ma]. *)
Lemma canonical_source (p : string → bool) canon ms d0 l ma :
  (∀ f, f ∈ l ↔ is_Some (extracted ms d0 !! f)) →
  p ZIP_NAME = false →
  (∀ g, is_Some (d0 !! g) → p g = true → g = canon) →
  List.filter (λ m, p (filename m)) ms = [ma] →
  match last_match (λ f, p f && negb (String.eqb f canon)) l with
  | Some f => extracted ms d0 !! f
  | None => extracted ms d0 !! canon
  end = Some (File (Raw (data ma))).
Proof.
  intros Hl Hz Ht Hf.
  assert (extracted ms d0 !! filename ma = Some (File (Raw (data ma)))) as Ha.
  { unfold extracted. by rewrite unpack_lookup, (member_data_only p ms ma Hf). }
  assert (p (filename ma) = true) as Hpa.
  { assert (In ma (List.filter (λ m, p (filename m)) ms)) as Hin
      by (rewrite Hf; by left).
    by apply filter_In in Hin as [_ Hin]. }
  destruct (last_match _ l) as [f|] eqn:E.
  - apply last_match_Some in E as [Hin Hp].
    apply andb_true_iff in Hp as [Hp Hne].
    apply negb_true_iff, String.eqb_neq in Hne.
    apply Hl in Hin. unfold extracted in Hin. rewrite unpack_lookup in Hin.
    destruct (member_data ms f) as [x|] eqn:Ed.
    + apply member_data_Some in Ed as (m & Hm & <- & _).
      by rewrite (member_only_name p ms ma m Hf Hm Hp).
    + rewrite lookup_insert_ne in Hin by (intros <-; congruence).
      by destruct Hne; apply Ht.
  - assert (filename ma ∈ l) as Hin by (apply Hl; rewrite Ha; by eexists).
    apply (last_match_None _ _ _ E) in Hin. rewrite Hpa in Hin. simpl in Hin.
    apply negb_false_iff, String.eqb_eq in Hin. by rewrite <- Hin.
Qed.

(** A rule [p] that no member and no starting entry passes: the loop's
    source for [canon] is empty. *)
Lemma canonical_source_none (p : string → bool) canon ms d0 l :
  (∀ f, f ∈ l ↔ is_Some (extracted ms d0 !! f)) →
  p ZIP_NAME = false → p canon = true →
  (∀ g, is_Some (d0 !! g) → p g = false) →
  (∀ m, m ∈ ms → p (filename m) = false) →
  match last_match (λ f, p f && negb (String.eqb f canon)) l with
  | Some f => extracted ms d0 !! f
  | None => extracted ms d0 !! canon
  end = None.
Proof.
  intros Hl Hz Hc Ht Hf.
  assert (∀ f, p f = true → extracted ms d0 !! f = None) as Hnone.
  { intros f Hp. unfold extracted. rewrite unpack_lookup.
    destruct (member_data ms f) as [x|] eqn:Ed.
    - apply member_data_Some in Ed as (m & Hm & <- & _).
      rewrite (Hf m Hm) in Hp. done.
    - rewrite lookup_insert_ne by (intros <-; congruence).
      destruct (d0 !! f) eqn:E0; [|done].
      rewrite (Ht f) in Hp; [done | by eexists]. }
  destruct (last_match _ l) as [f|] eqn:E; [|by apply Hnone].
  apply last_match_Some in E as [_ Hp].
  apply andb_true_iff in Hp as [Hp _]. by apply Hnone.
Qed.

(** Entries other than the canonical ones after the loop, when the
    enumeration lists the whole directory. *)
Lemma loop_result_other d l d' g :
  (∀ f, f ∈ l ↔ is_Some (d !! f)) → loop_result d l d' →
  g ≠ MODEL_NAME → g ≠ LABELS_NAME →
  d' !! g = if is_model g || is_label g then None else d !! g.
Proof.
  intros Hl (_ & _ & HO) H1 H2. rewrite (HO g H1 H2).
  destruct (is_model g || is_label g); [|done]. simpl.
  case_bool_decide as Hin; [done|].
  rewrite Hl in Hin. destruct (d !! g); [|done].
  destruct Hin. by eexists.
Qed.

Lemma run_plain_settled here scan ms d0 ma mb :
  enumeration scan → Forall (λ m, plain m = true) ms →
  regular d0 → tidy d0 →
  List.filter (λ m, is_model (filename m)) ms = [ma] →
  List.filter (λ m, is_label (filename m)) ms = [mb] →
  ∃ F out,
    run here scan (Fetched (Zip ms)) (Present d0)
    = Outcome Exit0 (Present F) (out ++ [MSG_DONE])
    ∧ regular F ∧ settled ms d0 ma mb F.
Proof.
  intros Hs Hp Hr Ht Ha Hb.
  destruct (run_plain here scan ms d0 Hs Hp Hr) as (d' & out & Hrun & Hr' & Hres).
  exists (delete ZIP_NAME d'), out.
  split; [done|]. split; [by apply regular_delete|].
  assert (∀ f, f ∈ scan (extracted ms d0) ↔ is_Some (extracted ms d0 !! f)) as Hl
    by (intros f; by apply enumeration_elem).
  intros g.
  destruct (String.eqb_spec g MODEL_NAME) as [->|H1].
  { rewrite lookup_delete_ne by done. destruct Hres as (-> & _ & _).
    apply (canonical_source is_model MODEL_NAME); try done.
    intros g' Hg'. by apply Ht. }
  destruct (String.eqb_spec g LABELS_NAME) as [->|H2].
  { rewrite lookup_delete_ne by done. destruct Hres as (_ & -> & _).
    apply (canonical_source is_label LABELS_NAME); try done.
    intros g' Hg'. by apply Ht. }
  destruct (String.eqb_spec g ZIP_NAME) as [->|H3].
  { by rewrite lookup_delete_eq. }
  rewrite lookup_delete_ne by done.
  rewrite (loop_result_other _ _ _ g Hl Hres H1 H2).
  destruct (is_model g || is_label g); [done|].
  unfold extracted. rewrite unpack_lookup.
  destruct (member_data ms g); [done|]. by rewrite lookup_insert_ne.
Qed.

Lemma scan_up_enumeration : enumeration scan_up.
Proof. intros d. reflexivity. Qed.

Lemma scan_down_enumeration : enumeration scan_down.
Proof. intros d. unfold scan_down. symmetry. apply Permutation_rev. Qed.

(** C1, amended: for an archive whose members all extract to regular
    files directly inside the target directory (each name is a single path
    component and is not model.zip), with exactly one name ending in
    ".tflite" and exactly one label name, a run on an absent or empty target
    directory, under any enumeration order, exits normally and leaves
    ssd_mobilenet_v1.tflite and labelmap.txt holding the bytes of those two
    members, and no model.zip. *)
Theorem pipeline_on_plain_archive here scan ms ma mb t :
  enumeration scan → makedirs t = inr ∅ →
  Forall (λ m, plain m = true) ms →
  List.filter (λ m, is_model (filename m)) ms = [ma] →
  List.filter (λ m, is_label (filename m)) ms = [mb] →
  let o := run here scan (Fetched (Zip ms)) t in
  exit o = Exit0
  ∧ lookup_target (final o) MODEL_NAME = Some (File (Raw (data ma)))
  ∧ lookup_target (final o) LABELS_NAME = Some (File (Raw (data mb)))
  ∧ lookup_target (final o) ZIP_NAME = None.
Proof.
  intros Hs Ht Hp Ha Hb o.
  destruct (run_plain_settled here scan ms ∅ ma mb Hs Hp regular_empty)
    as (F & out & Hrun & _ & HF); [|done|done|].
  { intros g [x Hx]. by rewrite lookup_empty in Hx. }
  assert (o = Outcome Exit0 (Present F) (out ++ [MSG_DONE])) as ->.
  { subst o. rewrite <- Hrun. unfold run. rewrite Ht.
    destruct t as [| | |d]; simpl in Ht; [done | done | done |].
    by injection Ht as ->. }
  simpl. split; [done|].
  split; [|split]; rewrite HF; reflexivity.
Qed.

Lemma pipeline_on_plain_archive_witness :
  let o := run "/repo" scan_up (Fetched (Zip scenario_archive)) Missing in
  exit o = Exit0
  ∧ lookup_target (final o) MODEL_NAME = Some (File (Raw (bytes_of "model")))
  ∧ lookup_target (final o) LABELS_NAME = Some (File (Raw (bytes_of "labels")))
  ∧ lookup_target (final o) ZIP_NAME = None.
Proof.
  apply (pipeline_on_plain_archive "/repo" scan_up scenario_archive
           {| filename := "detect.tflite"; data := bytes_of "model" |}
           {| filename := "labelmap.txt"; data := bytes_of "labels" |} Missing).
  - exact scan_up_enumeration.
  - reflexivity.
  - repeat constructor.
  - reflexivity.
  - reflexivity.
Defined.

(** C1 as stated fails: both members of this archive lie in a
    sub-directory, one name ends in ".tflite" and one is a label name, and
    the run exits normally with neither canonical file in the target
    directory. *)
Lemma nested_archive_no_canonical_files :
  List.length (List.filter (λ m, is_model (filename m)) nested_archive) = 1
  ∧ List.length (List.filter (λ m, is_label (filename m)) nested_archive) = 1
  ∧ let o := run "/repo" scan_up (Fetched (Zip nested_archive)) (Present ∅) in
    exit o = Exit0
    ∧ lookup_target (final o) MODEL_NAME = None
    ∧ lookup_target (final o) LABELS_NAME = None.
Proof. vm_compute. repeat split. Qed.

(** C5, amended: for an archive whose members all extract to regular
    files directly inside the target directory, none with a name ending in
    ".tflite", run on a target directory that is absent or holds regular
    files only, none with a name ending in ".tflite", the run exits normally
    under any enumeration order and ssd_mobilenet_v1.tflite is absent
    afterwards. *)
Theorem no_model_member_no_model_file here scan ms t d0 :
  enumeration scan → makedirs t = inr d0 →
  regular d0 → (∀ g, is_Some (d0 !! g) → is_model g = false) →
  Forall (λ m, plain m = true) ms →
  (∀ m, m ∈ ms → is_model (filename m) = false) →
  let o := run here scan (Fetched (Zip ms)) t in
  exit o = Exit0 ∧ lookup_target (final o) MODEL_NAME = None.
Proof.
  intros Hs Ht Hr Hd Hp Hm o.
  destruct (run_plain here scan ms d0 Hs Hp Hr) as (d' & out & Hrun & _ & Hres).
  assert (o = Outcome Exit0 (Present (delete ZIP_NAME d')) (out ++ [MSG_DONE])) as ->.
  { subst o. rewrite <- Hrun. unfold run. rewrite Ht.
    destruct t as [| | |d]; simpl in Ht; [|done|done|].
    - injection Ht as <-. done.
    - by injection Ht as ->. }
  simpl. split; [done|].
  rewrite lookup_delete_ne by done. destruct Hres as (-> & _ & _).
  apply (canonical_source_none is_model MODEL_NAME); try done.
  intros f. by apply enumeration_elem.
Qed.

Lemma no_model_member_no_model_file_witness :
  let o := run "/repo" scan_down
             (Fetched (Zip [ {| filename := "labelmap.txt"; data := bytes_of "labels" |} ]))
             Missing in
  exit o = Exit0 ∧ lookup_target (final o) MODEL_NAME = None.
Proof.
  apply (no_model_member_no_model_file "/repo" scan_down _ Missing ∅).
  - exact scan_down_enumeration.
  - reflexivity.
  - exact regular_empty.
  - intros g [x Hx]. by rewrite lookup_empty in Hx.
  - repeat constructor.
  - intros m Hm. apply list_elem_of_singleton in Hm as ->. reflexivity.
Defined.

(** C5 as stated fails on an empty target directory.  No member name of
    [directory_archive] ends in ".tflite", and the run leaves an entry
    called ssd_mobilenet_v1.tflite: the extracted directory export.tflite,
    renamed.  No member name of [dotted_archive] ends in ".tflite", and the
    run leaves the regular file ssd_mobilenet_v1.tflite with the bytes of
    its member.  No member name of [clash_archive] ends in ".tflite", and
    the run stops in the rename loop with [shutil.Error]. *)
Lemma no_model_member_counterexample :
  List.filter (λ m, is_model (filename m)) directory_archive = []
  ∧ (let o := run "/repo" scan_up (Fetched (Zip directory_archive)) (Present ∅) in
     exit o = Exit0
     ∧ lookup_target (final o) MODEL_NAME
       = Some (Dir (<["weights.bin" := File (Raw (bytes_of "w"))]> ∅)))
  ∧ List.filter (λ m, is_model (filename m)) dotted_archive = []
  ∧ (let o := run "/repo" scan_up (Fetched (Zip dotted_archive)) (Present ∅) in
     exit o = Exit0
     ∧ lookup_target (final o) MODEL_NAME = Some (File (Raw (bytes_of "w"))))
  ∧ List.filter (λ m, is_model (filename m)) clash_archive = []
  ∧ exit (run "/repo" scan_up (Fetched (Zip clash_archive)) (Present ∅))
    = Uncaught ShutilError
  ∧ exit (run "/repo" scan_down (Fetched (Zip clash_archive)) (Present ∅))
    = Uncaught ShutilError.
Proof. vm_compute. repeat split. Qed.

(** C6, amended: for an archive whose members all extract to regular
    files directly inside the target directory, with exactly one name ending
    in ".tflite" and exactly one label name, a first run on an absent or
    empty target directory and a second run on what the first one left both
    exit normally, under any two enumeration orders; the second run leaves
    exactly the directory the first one left, with the two canonical files
    holding the bytes of the two members. *)
Theorem second_run_same_directory here scan1 scan2 ms ma mb t :
  enumeration scan1 → enumeration scan2 → makedirs t = inr ∅ →
  Forall (λ m, plain m = true) ms →
  List.filter (λ m, is_model (filename m)) ms = [ma] →
  List.filter (λ m, is_label (filename m)) ms = [mb] →
  let o1 := run here scan1 (Fetched (Zip ms)) t in
  let o2 := run here scan2 (Fetched (Zip ms)) (final o1) in
  exit o1 = Exit0 ∧ exit o2 = Exit0 ∧ final o2 = final o1
  ∧ lookup_target (final o2) MODEL_NAME = Some (File (Raw (data ma)))
  ∧ lookup_target (final o2) LABELS_NAME = Some (File (Raw (data mb))).
Proof.
  intros Hs1 Hs2 Ht Hp Ha Hb o1 o2.
  destruct (run_plain_settled here scan1 ms ∅ ma mb Hs1 Hp regular_empty)
    as (F1 & out1 & Hrun1 & Hr1 & HF1); [|done|done|].
  { intros g [x Hx]. by rewrite lookup_empty in Hx. }
  assert (o1 = Outcome Exit0 (Present F1) (out1 ++ [MSG_DONE])) as E1.
  { subst o1. rewrite <- Hrun1. unfold run. rewrite Ht.
    destruct t as [| | |d]; simpl in Ht; [done | done | done |].
    by injection Ht as ->. }
  assert (tidy F1) as Ht1.
  { intros g [x Hx]. rewrite HF1 in Hx.
    destruct (String.eqb_spec g MODEL_NAME) as [->|H1]; [done|].
    destruct (String.eqb_spec g LABELS_NAME) as [->|H2]; [done|].
    destruct (String.eqb_spec g ZIP_NAME) as [->|H3]; [done|].
    destruct (is_model g) eqn:Em; [done|].
    destruct (is_label g) eqn:El; [done|]. done. }
  destruct (run_plain_settled here scan2 ms F1 ma mb Hs2 Hp Hr1 Ht1 Ha Hb)
    as (F2 & out2 & Hrun2 & Hr2 & HF2).
  assert (o2 = Outcome Exit0 (Present F2) (out2 ++ [MSG_DONE])) as E2.
  { subst o2. rewrite E1. simpl. done. }
  assert (F2 = F1) as ->.
  { apply map_eq. intros g. rewrite HF2. rewrite (HF1 g).
    destruct (String.eqb g MODEL_NAME) eqn:E1'; [done|].
    destruct (String.eqb g LABELS_NAME) eqn:E2'; [done|].
    destruct (String.eqb g ZIP_NAME) eqn:E3; [done|].
    destruct (is_model g || is_label g) eqn:E4; [done|].
    by destruct (member_data ms g). }
  rewrite E2, E1. simpl. repeat split; try done; rewrite HF1; reflexivity.
Qed.

Lemma second_run_same_directory_witness :
  let o1 := run "/repo" scan_up (Fetched (Zip scenario_archive)) Missing in
  let o2 := run "/repo" scan_down (Fetched (Zip scenario_archive)) (final o1) in
  exit o1 = Exit0 ∧ exit o2 = Exit0 ∧ final o2 = final o1
  ∧ lookup_target (final o2) MODEL_NAME = Some (File (Raw (bytes_of "model")))
  ∧ lookup_target (final o2) LABELS_NAME = Some (File (Raw (bytes_of "labels"))).
Proof.
  apply (second_run_same_directory "/repo" scan_up scan_down scenario_archive
           {| filename := "detect.tflite"; data := bytes_of "model" |}
           {| filename := "labelmap.txt"; data := bytes_of "labels" |} Missing).
  - exact scan_up_enumeration.
  - exact scan_down_enumeration.
  - reflexivity.
  - repeat constructor.
  - reflexivity.
  - reflexivity.
Defined.

(** C6 as stated fails: [rerun_archive] has one member whose name ends in
    ".tflite" and one label member, the first run on an empty directory
    exits normally, and the second run stops with [shutil.Error], in either
    enumeration order. *)
Lemma second_run_counterexample :
  List.length (List.filter (λ m, is_model (filename m)) rerun_archive) = 1
  ∧ List.length (List.filter (λ m, is_label (filename m)) rerun_archive) = 1
  ∧ (let o1 := run "/repo" scan_up (Fetched (Zip rerun_archive)) (Present ∅) in
     exit o1 = Exit0
     ∧ exit (run "/repo" scan_up (Fetched (Zip rerun_archive)) (final o1))
       = Uncaught ShutilError
     ∧ exit (run "/repo" scan_down (Fetched (Zip rerun_archive)) (final o1))
       = Uncaught ShutilError).
Proof. vm_compute. repeat split. Qed.

(** C2, amended: the step enumerates the directory once, before the loop,
    and moves every matching entry in enumeration order, each move
    replacing what the canonical name held.  On a directory of regular
    files the step succeeds, and the canonical model name then holds what
    the last enumerated name ending in ".tflite" (other than the canonical
    name itself) held before, or its old content when there is no such
    name; likewise for the label rule and labelmap.txt. *)
Theorem rename_step_last_match_wins here scan d out :
  enumeration scan → regular d →
  rename_step here scan (State d out)
  = for_each (scan d) (rename_body here) (State d out)
  ∧ ∃ d' out',
      rename_step here scan (State d out) = (inr tt, State d' out')
      ∧ d' !! MODEL_NAME
        = match last_match moved_to_model (scan d) with
          | Some f => d !! f
          | None => d !! MODEL_NAME
          end
      ∧ d' !! LABELS_NAME
        = match last_match moved_to_labels (scan d) with
          | Some f => d !! f
          | None => d !! LABELS_NAME
          end.
Proof.
  intros Hs Hr. split; [done|].
  destruct (rename_loop_regular here (scan d) d out Hr (enumeration_NoDup _ _ Hs))
    as (d' & out' & Hloop & _ & HM & HL & _).
  { intros f. by rewrite enumeration_elem. }
  exists d', out'. done.
Qed.

Lemma rename_step_last_match_wins_witness :
  ∃ d' out',
    rename_step "/repo" scan_up (State two_models []) = (inr tt, State d' out')
    ∧ d' !! MODEL_NAME = two_models !! "b.tflite"
    ∧ d' !! LABELS_NAME = None.
Proof.
  destruct (rename_step_last_match_wins "/repo" scan_up two_models []
              scan_up_enumeration)
    as (_ & d' & out' & H1 & H2 & H3).
  - intros n x. unfold two_models.
    rewrite lookup_insert. case_decide; [intros [= <-]; by eexists|].
    rewrite lookup_insert. case_decide; [intros [= <-]; by eexists|].
    by rewrite lookup_empty.
  - exists d', out'. split; [exact H1|]. split; [exact H2 | exact H3].
Defined.

(** C2 as stated fails: the directory holds a.tflite and b.tflite, the
    enumeration yields a.tflite first, and after the step the canonical
    model name holds the content of b.tflite. *)
Lemma first_match_counterexample :
  scan_up two_models = ["a.tflite"; "b.tflite"]
  ∧ two_models !! "a.tflite" = Some (File (Raw (bytes_of "A")))
  ∧ fs (rename_step "/repo" scan_up (State two_models [])).2 !! MODEL_NAME
    = Some (File (Raw (bytes_of "B")))
  ∧ fs (rename_step "/repo" scan_up (State two_models [])).2 !! MODEL_NAME
    ≠ two_models !! "a.tflite".
Proof. vm_compute. repeat split. discriminate. Qed.

(** ** Sequences of statements *)

Lemma exec_app a b s :
  exec (a ++ b) s
  = match exec a s with
    | (inl e, s') => (inl e, s')
    | (inr _, s') => exec b s'
    end.
Proof.
  revert s. induction a as [|st a IH]; intros s; [done|].
  simpl. unfold bind. destruct (st s) as [[e|[]] s1]; [done|].
  apply IH.
Qed.

Lemma exec_fails stmts :
  ∀ s e, (∃ s', exec stmts s = (inl e, s')) ↔ step_fails stmts s e.
Proof.
  induction stmts as [|st r IH]; intros s e.
  - split; [by intros [s' H] | by inversion 1].
  - simpl. unfold bind. split.
    + intros [s' H]. destruct (st s) as [[e1|[]] s1] eqn:E.
      * injection H as <- <-. by eapply fails_here.
      * eapply fails_later; [done|]. apply IH. by eexists.
    + inversion 1 as [? ? ? ? s' E|? ? ? s1 ? E Hr]; subst; rewrite E.
      * by eexists.
      * by apply IH.
Qed.

Lemma exec_preserves (P : state → Prop) stmts :
  Forall (λ st : M unit, ∀ s, P s → P (st s).2) stmts →
  ∀ s, P s → P (exec stmts s).2.
Proof.
  induction 1 as [|st r Hst _ IH]; intros s Hs; [done|].
  simpl. unfold bind. specialize (Hst s Hs).
  destruct (st s) as [[e|[]] s1]; [done|]. by apply IH.
Qed.

Lemma print_no_done line : line ≠ MSG_DONE → ∀ s, no_done s → no_done (print line s).2.
Proof.
  intros Hne s Hs. unfold no_done, print. simpl.
  rewrite elem_of_app, list_elem_of_singleton. intros [H|H]; [done | congruence].
Qed.

Lemma silent_no_done (m : M unit) :
  (∀ s, stdout (m s).2 = stdout s) → ∀ s, no_done s → no_done (m s).2.
Proof. intros H s Hs. unfold no_done. by rewrite H. Qed.

Lemma urlretrieve_stdout resp s : stdout (urlretrieve resp s).2 = stdout s.
Proof.
  destruct resp as [|partial|body]; unfold urlretrieve; monad_unfold; [done| |];
    by destruct (fs s !! ZIP_NAME) as [[c|sub]|].
Qed.

Lemma extract_member_stdout m s : stdout (extract_member m s).2 = stdout s.
Proof.
  unfold extract_member. monad_unfold.
  by destruct (if is_dir m then _ else _).
Qed.

Lemma for_each_stdout {A} (body : A → M unit) l :
  (∀ x s, stdout (body x s).2 = stdout s) →
  ∀ s, stdout (for_each l body s).2 = stdout s.
Proof.
  intros Hb. induction l as [|x l IH]; intros s; [done|].
  simpl. unfold bind. specialize (Hb x s).
  destruct (body x s) as [[e|[]] s1]; [done|]. simpl in Hb. by rewrite IH.
Qed.

Lemma extract_damaged_stdout m s : stdout (extract_damaged m s).2 = stdout s.
Proof.
  unfold extract_damaged. monad_unfold. by destruct (write_file _ _ _).
Qed.

Lemma extract_name_stdout z n s : stdout (extract_name z n s).2 = stdout s.
Proof.
  unfold extract_name, extract_entry. destruct (getinfo z n) as [e|]; [|done].
  destruct (e.2 || is_dir e.1);
    [apply extract_member_stdout | apply extract_damaged_stdout].
Qed.

Lemma extract_names_stdout z s : stdout (extract_names z s).2 = stdout s.
Proof. apply for_each_stdout, extract_name_stdout. Qed.

Lemma extract_step_stdout s : stdout (extract_step s).2 = stdout s.
Proof.
  unfold extract_step, ZipFile. monad_unfold.
  destruct (fs s !! ZIP_NAME) as [[[b|ms|before bad after]|sub]|]; try done;
    apply extract_names_stdout.
Qed.

Lemma cleanup_step_stdout s : stdout (cleanup_step s).2 = stdout s.
Proof.
  unfold cleanup_step, os_remove. monad_unfold.
  by destruct (fs s !! ZIP_NAME) as [[c|sub]|].
Qed.

Lemma rename_body_no_done here f s : no_done s → no_done (rename_body here f s).2.
Proof.
  intros Hs. unfold rename_body.
  destruct (is_model f); [|destruct (is_label f)]; [| |done].
  - unfold bind. pose proof (shutil_move_stdout f MODEL_NAME s) as Hm.
    destruct (shutil_move f MODEL_NAME s) as [[e|[]] s1]; simpl in Hm.
    + unfold no_done. simpl. by rewrite Hm.
    + apply print_no_done; [done|]. unfold no_done. by rewrite Hm.
  - unfold bind. pose proof (shutil_move_stdout f LABELS_NAME s) as Hm.
    destruct (shutil_move f LABELS_NAME s) as [[e|[]] s1]; simpl in Hm.
    + unfold no_done. simpl. by rewrite Hm.
    + apply print_no_done; [done|]. unfold no_done. by rewrite Hm.
Qed.

Lemma rename_step_no_done here scan s : no_done s → no_done (rename_step here scan s).2.
Proof.
  unfold rename_step, listdir.
  change ((let* names := let* d := get_fs in ret (scan d)
           in for_each names (rename_body here)) s)
    with (for_each (scan (fs s)) (rename_body here) s).
  generalize (scan (fs s)). intros l. revert s.
  induction l as [|f l IH]; intros s Hs; [done|].
  simpl. unfold bind. pose proof (rename_body_no_done here f s Hs) as Hb.
  destruct (rename_body here f s) as [[e|[]] s1]; [done|]. by apply IH.
Qed.

Lemma statements_split here scan resp :
  statements here scan resp
  = (body_statements here scan resp ++ [print MSG_DONE])%list.
Proof. reflexivity. Qed.

Lemma body_statements_no_done here scan resp s :
  no_done s → no_done (exec (body_statements here scan resp) s).2.
Proof.
  apply exec_preserves. unfold body_statements.
  repeat apply Forall_cons_2; try apply Forall_nil_2.
  - by apply print_no_done.
  - apply silent_no_done, urlretrieve_stdout.
  - by apply print_no_done.
  - by apply print_no_done.
  - apply silent_no_done, extract_step_stdout.
  - apply rename_step_no_done.
  - apply silent_no_done, cleanup_step_stdout.
Qed.

(** C3, amended: the run exits with the traceback of an exception exactly
    when [os.makedirs] or one of the later statements raises it, the
    statements before having succeeded, and the completion message is then
    not printed; a run that exits normally has printed the completion
    message last.  Nothing checks that the canonical files are present. *)
Theorem exit_follows_statements here scan resp t :
  let o := run here scan resp t in
  (∀ e, exit o = Uncaught e ↔
        (makedirs t = inl e
         ∨ ∃ d, makedirs t = inr d
                ∧ step_fails (statements here scan resp) (State d []) e))
  ∧ (exit o = Exit0 → list.last (printed o) = Some MSG_DONE)
  ∧ (∀ e, exit o = Uncaught e → MSG_DONE ∉ printed o).
Proof.
  intros o. subst o. unfold run.
  destruct (makedirs t) as [e0|d] eqn:Em.
  - simpl. split; [|split]; [|done|].
    + intros e. split.
      * intros [= ->]. by left.
      * intros [[= ->]|(d & Hd & _)]; done.
    + intros e _. apply not_elem_of_nil.
  - destruct (exec (statements here scan resp) (State d [])) as [[e1|[]] s1] eqn:Ex;
      simpl.
    + split; [|split]; [|done|].
      * intros e. split.
        -- intros [= ->]. right. exists d. split; [done|].
           apply exec_fails. by eexists.
        -- intros [H|(d' & [= <-] & Hf)]; [done|].
           apply exec_fails in Hf as [s' Hf]. congruence.
      * intros e _. rewrite statements_split, exec_app in Ex.
        pose proof (body_statements_no_done here scan resp (State d [])) as Hn.
        destruct (exec (body_statements here scan resp) (State d []))
          as [[e2|[]] s2]; [|done].
        injection Ex as _ <-. apply Hn. apply not_elem_of_nil.
    + split; [|split]; [| |done].
      * intros e. split; [done|].
        intros [H|(d' & [= <-] & Hf)]; [done|].
        apply exec_fails in Hf as [s' Hf]. congruence.
      * intros _. rewrite statements_split, exec_app in Ex.
        destruct (exec (body_statements here scan resp) (State d []))
          as [[e2|[]] s2]; [done|].
        simpl in Ex. injection Ex as <-. simpl. apply last_snoc.
Qed.

(** C3 as stated fails: the archive holds only readme.md, the run exits
    normally and prints the completion message, and neither canonical file
    is in the target directory. *)
Lemma success_without_canonical_files :
  let o := run "/repo" scan_up (Fetched (Zip readme_archive)) Missing in
  exit o = Exit0
  ∧ list.last (printed o) = Some MSG_DONE
  ∧ lookup_target (final o) MODEL_NAME = None
  ∧ lookup_target (final o) LABELS_NAME = None.
Proof. vm_compute. repeat split. Qed.


(** C7: [os.remove] is not guarded.  When the statements before the
    clean-up have succeeded and the archive is not in the target directory,
    the clean-up raises [FileNotFoundError] and changes nothing, and the
    script stops there with that exception: the completion message is not
    printed. *)
Theorem cleanup_without_archive_aborts (pre : list (M unit)) s0 s :
  exec pre s0 = (inr tt, s) →
  fs s !! ZIP_NAME = None →
  cleanup_step s = (inl FileNotFoundError, s)
  ∧ exec (pre ++ [cleanup_step; print MSG_DONE]) s0 = (inl FileNotFoundError, s).
Proof.
  intros Hpre Hz.
  assert (cleanup_step s = (inl FileNotFoundError, s)) as Hc.
  { unfold cleanup_step, os_remove. monad_unfold. by rewrite Hz. }
  split; [done|].
  rewrite exec_app, Hpre. simpl. by rewrite (bind_err _ _ _ _ _ Hc).
Qed.

Lemma cleanup_without_archive_aborts_witness :
  cleanup_step (State ∅ [MSG_EXTRACTING])
  = (inl FileNotFoundError, State ∅ [MSG_EXTRACTING])
  ∧ exec [print MSG_EXTRACTING; cleanup_step; print MSG_DONE] (State ∅ [])
    = (inl FileNotFoundError, State ∅ [MSG_EXTRACTING]).
Proof.
  apply (cleanup_without_archive_aborts [print MSG_EXTRACTING]
           (State ∅ []) (State ∅ [MSG_EXTRACTING])).
  - reflexivity.
  - reflexivity.
Defined.

Lemma statements_end_with_cleanup here scan resp :
  ∃ pre, statements here scan resp
         = (pre ++ [cleanup_step; print MSG_DONE])%list.
Proof.
  by exists [print MSG_DOWNLOADING; urlretrieve resp; print MSG_DOWNLOADED;
             print MSG_EXTRACTING; extract_step; rename_step here scan].
Qed.

(** ** The names that extraction resolves *)

Lemma arcname_parts_valid name :
  Forall (λ x, invalid_path_part x = false) (arcname_parts name).
Proof.
  unfold arcname_parts. apply Forall_forall. intros x Hx.
  apply list_elem_of_In, filter_In in Hx as [_ Hx]. by apply negb_true_iff.
Qed.

(** * Further properties of the script *)

(** ** Paths *)

Lemma append_assoc (a b c : string) : ((a ++ b) ++ c)%string = (a ++ (b ++ c))%string.
Proof.
  induction a as [|x a IH]; [done|].
  change (String x ((a ++ b) ++ c) = String x (a ++ (b ++ c))). by rewrite IH.
Qed.

Lemma last_char_append a b c :
  last_char b = Some c → last_char (a ++ b) = Some c.
Proof.
  intros H. induction a as [|x a IH]; [done|].
  change (last_char (String x (a ++ b)) = Some c). simpl. by rewrite IH.
Qed.

Lemma append_nonempty a b : b ≠ "" → (a ++ b)%string ≠ "".
Proof. intros H. destruct a; [done | discriminate]. Qed.

(** Joining a name that does not start with a slash to a directory path
    whose last character is not a slash. *)
Lemma path_join_plain a b c :
  last_char a = Some c → c ≠ "/"%char → PyStr.startswith_slash b = false →
  PyStr.path_join a b = (a ++ "/" ++ b)%string.
Proof.
  intros Ha Hc Hb. unfold PyStr.path_join. rewrite Hb.
  destruct (String.eqb_spec a "") as [->|_]; [done|]. simpl.
  destruct (PyStr.endswith a "/") eqn:E; [|done].
  pose proof (endswith_last_char _ _ "/"%char E eq_refl). congruence.
Qed.

Lemma path_join_app_last here : last_char (PyStr.path_join here "app") = Some "p"%char.
Proof.
  unfold PyStr.path_join. simpl PyStr.startswith_slash. cbn iota.
  destruct (_ || _); by apply last_char_append.
Qed.

(** X1: the paths of the script: wherever the script lies, [ASSETS_DIR] is
    its directory joined with "app", followed by "/src/main/assets"; the
    archive path and the two destination paths are [ASSETS_DIR], a slash and
    the file name. *)
Theorem script_paths here :
  ASSETS_DIR here = (PyStr.path_join here "app" ++ "/src/main/assets")%string
  ∧ ZIP_PATH here = (ASSETS_DIR here ++ "/model.zip")%string
  ∧ PyStr.path_join (ASSETS_DIR here) MODEL_NAME
    = (ASSETS_DIR here ++ "/ssd_mobilenet_v1.tflite")%string
  ∧ PyStr.path_join (ASSETS_DIR here) LABELS_NAME
    = (ASSETS_DIR here ++ "/labelmap.txt")%string.
Proof.
  assert (ASSETS_DIR here
          = (PyStr.path_join here "app" ++ "/src/main/assets")%string) as HA.
  { unfold ASSETS_DIR.
    rewrite (path_join_plain (PyStr.path_join here "app") "src" "p"%char);
      [|apply path_join_app_last|done|done].
    rewrite (path_join_plain _ "main" "c"%char);
      [|by apply last_char_append|done|done].
    rewrite (path_join_plain _ "assets" "n"%char);
      [|by apply last_char_append|done|done].
    by rewrite !append_assoc. }
  assert (last_char (ASSETS_DIR here) = Some "s"%char) as HL
    by (rewrite HA; by apply last_char_append).
  split; [done|]. unfold ZIP_PATH.
  split; [|split]; by apply (path_join_plain _ _ "s"%char).
Qed.

(** ** Where the archive is during a run *)

Lemma write_file_deeper p q rest c d :
  write_file (p :: q :: rest) c d
  = match d !! p with
    | Some (File _) => inl NotADirectoryError
    | Some (Dir sub) =>
        match write_file (q :: rest) c sub with
        | inl e => inl e
        | inr sub' => inr (<[p := Dir sub']> d)
        end
    | None =>
        match write_file (q :: rest) c ∅ with
        | inl e => inl e
        | inr sub' => inr (<[p := Dir sub']> d)
        end
    end.
Proof. reflexivity. Qed.

Lemma write_file_top path c d d' g :
  write_file path c d = inr d' → head path ≠ Some g → d' !! g = d !! g.
Proof.
  destruct path as [|p [|q rest]]; [done| |]; intros H Hg.
  - simpl in *. destruct (d !! p) as [[x|sub]|]; try done;
      injection H as <-; rewrite lookup_insert_ne; congruence.
  - rewrite write_file_deeper in H. simpl in Hg.
    destruct (d !! p) as [[x|sub]|]; [done| |];
      destruct (write_file (q :: rest) c _) as [e|sub']; try done;
      injection H as <-; rewrite lookup_insert_ne; congruence.
Qed.

Lemma make_dir_top path d d' g :
  make_dir path d = inr d' → head path ≠ Some g → d' !! g = d !! g.
Proof.
  destruct path as [|p rest]; simpl; intros H Hg; [by injection H as <-|].
  destruct (d !! p) as [[x|sub]|]; [done| |];
    destruct (make_dir rest _) as [e|sub']; try done;
    injection H as <-; rewrite lookup_insert_ne; congruence.
Qed.

Lemma write_file_keeps_files path c d d' n x :
  write_file path c d = inr d' → d !! n = Some (File x) →
  ∃ y, d' !! n = Some (File y).
Proof.
  intros H Hn. destruct (decide (head path = Some n)) as [Hh|Hh].
  - destruct path as [|p [|q rest]]; [done| |].
    + simpl in *. injection Hh as ->. rewrite Hn in H.
      injection H as <-. rewrite lookup_insert_eq. by eexists.
    + rewrite write_file_deeper in H. simpl in Hh. injection Hh as ->.
      by rewrite Hn in H.
  - rewrite (write_file_top _ _ _ _ _ H Hh). by eexists.
Qed.

Lemma make_dir_keeps_files path d d' n x :
  make_dir path d = inr d' → d !! n = Some (File x) →
  ∃ y, d' !! n = Some (File y).
Proof.
  intros H Hn. destruct (decide (head path = Some n)) as [Hh|Hh].
  - destruct path as [|p rest]; [done|]; simpl in *.
    injection Hh as ->. by rewrite Hn in H.
  - rewrite (make_dir_top _ _ _ _ H Hh). by eexists.
Qed.

(** A member that cannot be extracted leaves the directory as it was. *)
Lemma extract_member_error m s e s' :
  extract_member m s = (inl e, s') → s' = s.
Proof.
  unfold extract_member. monad_unfold.
  destruct (if is_dir m then _ else _); [|done]. by intros [= _ <-].
Qed.

Lemma extract_member_has_zip m s : has_zip s → has_zip (extract_member m s).2.
Proof.
  intros [c Hc]. unfold extract_member. monad_unfold.
  destruct (is_dir m).
  - destruct (make_dir _ (fs s)) as [e|d'] eqn:E; simpl; [by exists c|].
    by apply (make_dir_keeps_files _ _ _ _ _ E Hc).
  - destruct (write_file _ _ (fs s)) as [e|d'] eqn:E; simpl; [by exists c|].
    by apply (write_file_keeps_files _ _ _ _ _ _ E Hc).
Qed.

Lemma for_each_preserves {A} (P : state → Prop) (body : A → M unit) l :
  (∀ x s, P s → P (body x s).2) → ∀ s, P s → P (for_each l body s).2.
Proof.
  intros Hb. induction l as [|x l IH]; intros s Hs; [done|].
  simpl. unfold bind. specialize (Hb x s Hs).
  destruct (body x s) as [[e|[]] s1]; [done|]. by apply IH.
Qed.

Lemma extract_damaged_has_zip m s : has_zip s → has_zip (extract_damaged m s).2.
Proof.
  intros [c Hc]. unfold extract_damaged. monad_unfold.
  destruct (write_file _ _ (fs s)) as [e|d'] eqn:E; simpl; [by exists c|].
  by apply (write_file_keeps_files _ _ _ _ _ _ E Hc).
Qed.

Lemma extract_name_has_zip z n s : has_zip s → has_zip (extract_name z n s).2.
Proof.
  unfold extract_name, extract_entry. destruct (getinfo z n) as [e|]; [|done].
  destruct (e.2 || is_dir e.1);
    [apply extract_member_has_zip | apply extract_damaged_has_zip].
Qed.

Lemma extract_step_has_zip s : has_zip s → has_zip (extract_step s).2.
Proof.
  intros Hs. unfold extract_step, ZipFile. monad_unfold.
  destruct (fs s !! ZIP_NAME) as [[[b|ms|before bad after]|sub]|]; try done;
    (apply (for_each_preserves has_zip); [apply extract_name_has_zip | done]).
Qed.

Lemma rename_step_has_zip here scan s : has_zip s → has_zip (rename_step here scan s).2.
Proof.
  intros [c Hc]. exists c. rewrite <- Hc. unfold rename_step, listdir.
  change (fs (for_each (scan (fs s)) (rename_body here) s).2 !! ZIP_NAME
          = fs s !! ZIP_NAME).
  by apply rename_loop_frame.
Qed.

Lemma print_has_zip line s : has_zip s → has_zip (print line s).2.
Proof. done. Qed.

Lemma urlretrieve_has_zip resp s s' :
  urlretrieve resp s = (inr tt, s') → has_zip s'.
Proof.
  destruct resp as [|partial|body]; unfold urlretrieve; monad_unfold; [done| |];
    destruct (fs s !! ZIP_NAME) as [[c|sub]|]; try done;
    intros [= <-]; eexists; apply lookup_insert_eq.
Qed.

Lemma cleanup_step_has_zip s :
  has_zip s → cleanup_step s = (inr tt, State (delete ZIP_NAME (fs s)) (stdout s)).
Proof.
  intros [c Hc]. unfold cleanup_step, os_remove. monad_unfold. by rewrite Hc.
Qed.

Lemma before_cleanup_split here scan resp :
  before_cleanup here scan resp
  = ([print MSG_DOWNLOADING; urlretrieve resp]
     ++ [print MSG_DOWNLOADED; print MSG_EXTRACTING; extract_step;
         rename_step here scan])%list.
Proof. reflexivity. Qed.

Lemma after_download_has_zip here scan s :
  has_zip s →
  has_zip (exec [print MSG_DOWNLOADED; print MSG_EXTRACTING; extract_step;
                 rename_step here scan] s).2.
Proof.
  apply exec_preserves.
  repeat apply Forall_cons_2; try apply Forall_nil_2.
  - apply print_has_zip.
  - apply print_has_zip.
  - apply extract_step_has_zip.
  - apply rename_step_has_zip.
Qed.

Lemma download_has_zip resp s s' :
  exec [print MSG_DOWNLOADING; urlretrieve resp] s = (inr tt, s') → has_zip s'.
Proof.
  simpl. unfold bind at 1. cbn [print]. unfold bind.
  destruct (urlretrieve resp _) as [[e|[]] s1] eqn:E; [done|].
  intros [= <-]. by apply (urlretrieve_has_zip _ _ _ E).
Qed.

Lemma before_cleanup_has_zip here scan resp d s :
  exec (before_cleanup here scan resp) (State d []) = (inr tt, s) → has_zip s.
Proof.
  intros H. rewrite before_cleanup_split, exec_app in H.
  destruct (exec [print MSG_DOWNLOADING; urlretrieve resp] (State d []))
    as [[e|[]] s1] eqn:E1; [done|].
  apply download_has_zip in E1.
  pose proof (after_download_has_zip here scan s1 E1) as H2.
  by rewrite H in H2.
Qed.

(** X2: in a run, the clean-up finds the archive: when the statements before
    [os.remove] have succeeded, model.zip is a regular file of the target
    directory, and the clean-up removes it without raising. *)
Theorem cleanup_finds_archive here scan resp d s :
  exec (before_cleanup here scan resp) (State d []) = (inr tt, s) →
  (∃ c, fs s !! ZIP_NAME = Some (File c))
  ∧ cleanup_step s = (inr tt, State (delete ZIP_NAME (fs s)) (stdout s)).
Proof.
  intros H. apply before_cleanup_has_zip in H.
  split; [done | by apply cleanup_step_has_zip].
Qed.

Lemma cleanup_finds_archive_witness :
  let s := (exec (before_cleanup "/repo" scan_up (Fetched (Zip scenario_archive)))
              (State ∅ [])).2 in
  (∃ c, fs s !! ZIP_NAME = Some (File c))
  ∧ cleanup_step s = (inr tt, State (delete ZIP_NAME (fs s)) (stdout s)).
Proof.
  intros s.
  apply (cleanup_finds_archive "/repo" scan_up (Fetched (Zip scenario_archive)) ∅ s).
  vm_compute. reflexivity.
Defined.

Lemma statements_cleanup_split here scan resp :
  statements here scan resp
  = (before_cleanup here scan resp ++ [cleanup_step; print MSG_DONE])%list.
Proof. reflexivity. Qed.

Lemma run_unfold here scan resp t d :
  makedirs t = inr d →
  run here scan resp t
  = match exec (statements here scan resp) (State d []) with
    | (inl e, s) => Outcome (Uncaught e) (Present (fs s)) (stdout s)
    | (inr _, s) => Outcome Exit0 (Present (fs s)) (stdout s)
    end.
Proof. intros H. unfold run. by rewrite H. Qed.

(** X3: a run that exits normally has removed the archive: model.zip is not
    in the target directory afterwards, whatever the archive held. *)
Theorem success_removes_archive here scan resp t :
  exit (run here scan resp t) = Exit0 →
  lookup_target (final (run here scan resp t)) ZIP_NAME = None.
Proof.
  destruct (makedirs t) as [e|d] eqn:Em.
  { unfold run. rewrite Em. done. }
  rewrite (run_unfold _ _ _ _ _ Em), statements_cleanup_split, exec_app.
  destruct (exec (before_cleanup here scan resp) (State d [])) as [[e|[]] s1] eqn:E;
    [done|].
  cbn [exec].
  rewrite (bind_ok _ _ _ tt _
             (cleanup_step_has_zip s1 (before_cleanup_has_zip _ _ _ _ _ E))).
  simpl. intros _. apply lookup_delete_eq.
Qed.

Lemma success_removes_archive_witness :
  lookup_target (final (run "/repo" scan_up (Fetched (Zip nested_archive)) Missing))
    ZIP_NAME = None.
Proof.
  apply (success_removes_archive "/repo" scan_up (Fetched (Zip nested_archive)) Missing).
  vm_compute. reflexivity.
Defined.

(** X4: no roll-back: when the download has written model.zip and a later
    statement raises, the archive is still in the target directory at the
    end of the run. *)
Theorem failed_run_keeps_archive here scan body t d e :
  makedirs t = inr d →
  (∀ sub, d !! ZIP_NAME ≠ Some (Dir sub)) →
  exit (run here scan (Fetched body) t) = Uncaught e →
  ∃ c, lookup_target (final (run here scan (Fetched body) t)) ZIP_NAME
       = Some (File c).
Proof.
  intros Hm Hz.
  rewrite (run_unfold _ _ _ _ _ Hm), statements_cleanup_split, exec_app.
  rewrite before_cleanup_split, exec_app.
  assert (exec [print MSG_DOWNLOADING; urlretrieve (Fetched body)] (State d [])
          = (inr tt, State (<[ZIP_NAME := File body]> d) [MSG_DOWNLOADING])) as Hd.
  { simpl. unfold bind at 1. cbn [print fs stdout app].
    assert (urlretrieve (Fetched body) (State d [MSG_DOWNLOADING])
            = (inr tt, State (<[ZIP_NAME := File body]> d) [MSG_DOWNLOADING])) as Hu.
    { unfold urlretrieve. monad_unfold.
      destruct (d !! ZIP_NAME) as [[c|sub]|] eqn:E; try done. by destruct (Hz sub). }
    by rewrite (bind_ok _ _ _ tt _ Hu). }
  rewrite Hd.
  pose proof (after_download_has_zip here scan
                (State (<[ZIP_NAME := File body]> d) [MSG_DOWNLOADING])) as Hk.
  destruct (exec [print MSG_DOWNLOADED; print MSG_EXTRACTING; extract_step;
                  rename_step here scan] _) as [[e1|[]] s2] eqn:E2.
  - simpl. intros _. apply Hk. eexists. apply lookup_insert_eq.
  - assert (has_zip s2) as H2 by (apply Hk; eexists; apply lookup_insert_eq).
    cbn [exec]. by rewrite (bind_ok _ _ _ tt _ (cleanup_step_has_zip s2 H2)).
Qed.

Lemma failed_run_keeps_archive_witness :
  ∃ c, lookup_target (final (run "/repo" scan_up (Fetched (Zip clash_archive)) Missing))
         ZIP_NAME = Some (File c).
Proof.
  apply (failed_run_keeps_archive "/repo" scan_up (Zip clash_archive) Missing ∅ ShutilError).
  - reflexivity.
  - intros sub. by rewrite lookup_empty.
  - vm_compute. reflexivity.
Defined.

(** ** What a run leaves alone *)

Lemma extract_member_frame m s g :
  head (arcname_parts (filename m)) ≠ Some g →
  fs (extract_member m s).2 !! g = fs s !! g.
Proof.
  intros Hg. unfold extract_member. monad_unfold.
  destruct (is_dir m).
  - destruct (make_dir _ (fs s)) as [e|d'] eqn:E; simpl; [done|].
    by apply (make_dir_top _ _ _ _ E).
  - destruct (write_file _ _ (fs s)) as [e|d'] eqn:E; simpl; [done|].
    by apply (write_file_top _ _ _ _ _ E).
Qed.

Lemma extract_damaged_frame m s g :
  head (arcname_parts (filename m)) ≠ Some g →
  fs (extract_damaged m s).2 !! g = fs s !! g.
Proof.
  intros Hg. unfold extract_damaged. monad_unfold.
  destruct (write_file _ _ (fs s)) as [e|d'] eqn:E; simpl; [done|].
  by apply (write_file_top _ _ _ _ _ E).
Qed.

Lemma getinfo_elem z n e : getinfo z n = Some e → e ∈ z.
Proof.
  induction z as [|e' z IH]; simpl; [done|].
  destruct (getinfo z n) as [x|].
  - intros [= ->]. right. by apply IH.
  - destruct (String.eqb (filename e'.1) n); [|done]. intros [= ->]. by left.
Qed.

Lemma extract_name_frame z n s g :
  (∀ e, e ∈ z → head (arcname_parts (filename e.1)) ≠ Some g) →
  fs (extract_name z n s).2 !! g = fs s !! g.
Proof.
  intros Hz. unfold extract_name, extract_entry.
  destruct (getinfo z n) as [e|] eqn:E; [|done].
  apply getinfo_elem, Hz in E.
  destruct (e.2 || is_dir e.1);
    [by apply extract_member_frame | by apply extract_damaged_frame].
Qed.

Lemma extract_names_frame z g :
  (∀ e, e ∈ z → head (arcname_parts (filename e.1)) ≠ Some g) →
  ∀ s, fs (extract_names z s).2 !! g = fs s !! g.
Proof.
  intros Hz s. unfold extract_names.
  apply (for_each_preserves (λ s', fs s' !! g = fs s !! g)); [|done].
  intros n s' <-. by apply extract_name_frame.
Qed.

Lemma elem_of_intact e ms : e ∈ intact ms → e.1 ∈ ms.
Proof.
  unfold intact. intros H. apply list_elem_of_fmap in H as (m & -> & Hm). done.
Qed.

Lemma extract_step_frame s b g :
  fs s !! ZIP_NAME = Some (File b) →
  (∀ m, m ∈ members_of (Fetched b) → head (arcname_parts (filename m)) ≠ Some g) →
  fs (extract_step s).2 !! g = fs s !! g.
Proof.
  intros Hz Hms. unfold extract_step, ZipFile. unfold bind at 1. unfold bind at 1.
  cbn [get_fs fs]. rewrite Hz. destruct b as [raw|ms|before bad after]; [done| |];
    cbn [ret]; apply extract_names_frame; intros e He; apply Hms; simpl.
  - by apply elem_of_intact.
  - apply elem_of_app in He as [He|He]; apply elem_of_app;
      [left; by apply elem_of_intact|right].
    apply elem_of_cons in He as [->|He]; [by left | right; by apply elem_of_intact].
Qed.

Lemma urlretrieve_frame resp s g :
  g ≠ ZIP_NAME → fs (urlretrieve resp s).2 !! g = fs s !! g.
Proof.
  intros Hg. destruct resp as [|partial|body]; unfold urlretrieve; monad_unfold;
    [done| |]; destruct (fs s !! ZIP_NAME) as [[c|sub]|]; simpl; try done;
    by rewrite lookup_insert_ne.
Qed.

Lemma cleanup_step_frame s g :
  g ≠ ZIP_NAME → fs (cleanup_step s).2 !! g = fs s !! g.
Proof.
  intros Hg. unfold cleanup_step, os_remove. monad_unfold.
  destruct (fs s !! ZIP_NAME) as [[c|sub]|]; simpl; try done.
  by rewrite lookup_delete_ne.
Qed.

Lemma run_final here scan resp t d :
  makedirs t = inr d →
  final (run here scan resp t)
  = Present (fs (exec (statements here scan resp) (State d [])).2).
Proof.
  intros H. rewrite (run_unfold _ _ _ _ _ H).
  by destruct (exec _ _) as [[e|[]] s].
Qed.

Lemma statements_frame here scan resp d g :
  g ≠ ZIP_NAME → is_model g = false → is_label g = false →
  (∀ m, m ∈ members_of resp → head (arcname_parts (filename m)) ≠ Some g) →
  fs (exec (statements here scan resp) (State d [])).2 !! g = d !! g.
Proof.
  intros Hz Hm Hl Hms. unfold statements. cbn [exec].
  unfold bind at 1. cbn [print fs stdout app].
  unfold bind at 1.
  pose proof (urlretrieve_frame resp (State d [MSG_DOWNLOADING]) g Hz) as Hu.
  destruct (urlretrieve resp (State d [MSG_DOWNLOADING])) as [[e|[]] s1] eqn:Eu;
    [done|].
  simpl in Hu.
  assert (∃ body, resp = Fetched body ∧ fs s1 !! ZIP_NAME = Some (File body))
    as (body & -> & Hb).
  { destruct resp as [|partial|body]; unfold urlretrieve in Eu; monad_unfold;
      [done| |]; destruct (d !! ZIP_NAME) as [[c|sub]|]; try done;
      injection Eu as <-; exists body; (split; [done|]); simpl;
      apply lookup_insert_eq. }
  unfold bind at 1. cbn [print]. unfold bind at 1. cbn [print]. unfold bind at 1.
  pose proof (extract_step_frame
                (State (fs s1) ((stdout s1 ++ [MSG_DOWNLOADED]) ++ [MSG_EXTRACTING]))
                body g Hb Hms) as He.
  cbn [fs stdout] in *.
  destruct (extract_step _) as [[e|[]] s2]; simpl in He; [simpl; congruence|].
  rewrite <- Hu, <- He.
  change (bind (rename_step here scan)
            (λ _, bind cleanup_step (λ _, bind (print MSG_DONE) (λ _, ret tt))))
    with (exec [rename_step here scan; cleanup_step; print MSG_DONE]).
  apply (exec_preserves (λ s, fs s !! g = fs s2 !! g)); [|done].
  repeat apply Forall_cons_2; try apply Forall_nil_2.
  - intros s <-. unfold rename_step, listdir.
    change (fs (for_each (scan (fs s)) (rename_body here) s).2 !! g = fs s !! g).
    by apply rename_loop_frame.
  - intros s <-. by apply cleanup_step_frame.
  - by intros s <-.
Qed.

(** X5: whatever the server answers, in whatever order the directory is
    enumerated, and whether the run ends normally or with an exception: an
    entry of the target directory whose name is not model.zip, passes
    neither rule, and is not the first path component of any member of the
    downloaded archive, damaged or not, holds after the run what it held
    before. *)
Theorem run_leaves_unrelated_entries here scan resp t d g :
  makedirs t = inr d →
  g ≠ ZIP_NAME → is_model g = false → is_label g = false →
  (∀ m, m ∈ members_of resp → head (arcname_parts (filename m)) ≠ Some g) →
  lookup_target (final (run here scan resp t)) g = d !! g.
Proof.
  intros Hd Hz Hm Hl Hms. rewrite (run_final _ _ _ _ _ Hd). simpl.
  by apply statements_frame.
Qed.

Lemma run_leaves_unrelated_entries_witness :
  lookup_target
    (final (run "/repo" scan_down (Fetched (Zip clash_archive))
              (Present (<["notes.md" := File (Raw (bytes_of "n"))]> ∅))))
    "notes.md"
  = Some (File (Raw (bytes_of "n"))).
Proof.
  rewrite (run_leaves_unrelated_entries "/repo" scan_down (Fetched (Zip clash_archive))
             (Present (<["notes.md" := File (Raw (bytes_of "n"))]> ∅))
             (<["notes.md" := File (Raw (bytes_of "n"))]> ∅) "notes.md").
  - reflexivity.
  - reflexivity.
  - discriminate.
  - reflexivity.
  - reflexivity.
  - intros m Hm. vm_compute in Hm.
    apply elem_of_cons in Hm as [->|Hm]; [discriminate|].
    apply list_elem_of_singleton in Hm as ->. discriminate.
Defined.

(** ** The rename step, again *)

(** X6: running the classify-and-rename step a second time changes nothing:
    on a directory of regular files both passes succeed, and the second
    leaves the directory that the first one left. *)
Theorem rename_step_idempotent here scan d out :
  enumeration scan → regular d →
  ∃ d' out1 out2,
    rename_step here scan (State d out) = (inr tt, State d' out1)
    ∧ rename_step here scan (State d' out1) = (inr tt, State d' out2).
Proof.
  intros Hs Hr.
  assert (∀ d f, f ∈ scan d ↔ is_Some (d !! f)) as Hl
    by (intros d0 f; by apply enumeration_elem).
  destruct (rename_loop_regular here (scan d) d out Hr (enumeration_NoDup _ _ Hs))
    as (d1 & out1 & Hrun1 & Hr1 & Hres1); [by intros f; apply Hl|].
  destruct (rename_loop_regular here (scan d1) d1 out1 Hr1 (enumeration_NoDup _ _ Hs))
    as (d2 & out2 & Hrun2 & _ & Hres2); [by intros f; apply Hl|].
  assert (∀ g, g ≠ MODEL_NAME → g ≠ LABELS_NAME →
               is_model g || is_label g = true → d1 !! g = None) as Hgone.
  { intros g H1 H2 Hg.
    rewrite (loop_result_other _ _ _ g (Hl d) Hres1 H1 H2). by rewrite Hg. }
  assert (d2 = d1) as ->.
  { apply map_eq. intros g.
    destruct (decide (g = MODEL_NAME)) as [->|H1].
    { destruct Hres2 as (-> & _ & _).
      destruct (last_match moved_to_model (scan d1)) as [f|] eqn:E; [|done].
      apply last_match_Some in E as [Hin Hp].
      apply moved_to_model_spec in Hp as [Hp Hne].
      apply Hl in Hin as [x Hx].
      rewrite Hgone in Hx; [done | done | | by rewrite Hp].
      apply model_ne_label; [done | reflexivity]. }
    destruct (decide (g = LABELS_NAME)) as [->|H2].
    { destruct Hres2 as (_ & -> & _).
      destruct (last_match moved_to_labels (scan d1)) as [f|] eqn:E; [|done].
      apply last_match_Some in E as [Hin Hp].
      apply moved_to_labels_spec in Hp as [Hp Hne].
      apply Hl in Hin as [x Hx].
      rewrite Hgone in Hx; [done | | done | by rewrite Hp, orb_true_r].
      apply not_eq_sym, model_ne_label; [reflexivity | done]. }
    rewrite (loop_result_other _ _ _ g (Hl d1) Hres2 H1 H2).
    destruct (is_model g || is_label g) eqn:Eg; [|done].
    symmetry. by apply Hgone. }
  exists d1, out1, out2. split; [exact Hrun1 | exact Hrun2].
Qed.

Lemma rename_step_idempotent_witness :
  ∃ d' out1 out2,
    rename_step "/repo" scan_up (State two_models []) = (inr tt, State d' out1)
    ∧ rename_step "/repo" scan_up (State d' out1) = (inr tt, State d' out2).
Proof.
  apply (rename_step_idempotent "/repo" scan_up two_models [] scan_up_enumeration).
  intros n x. unfold two_models.
  rewrite lookup_insert. case_decide; [intros [= <-]; by eexists|].
  rewrite lookup_insert. case_decide; [intros [= <-]; by eexists|].
  by rewrite lookup_empty.
Defined.

Lemma rename_body_log here f s s' :
  rename_body here f s = (inr tt, s') →
  stdout s' = (stdout s ++ if is_model f || is_label f
                           then [save_message here f] else [])%list.
Proof.
  unfold rename_body, save_message.
  destruct (is_model f); [|destruct (is_label f)]; simpl.
  - unfold bind. pose proof (shutil_move_stdout f MODEL_NAME s) as Hm.
    destruct (shutil_move f MODEL_NAME s) as [[e|[]] s1]; [done|].
    simpl in Hm. intros [= <-]. simpl. by rewrite Hm.
  - unfold bind. pose proof (shutil_move_stdout f LABELS_NAME s) as Hm.
    destruct (shutil_move f LABELS_NAME s) as [[e|[]] s1]; [done|].
    simpl in Hm. intros [= <-]. simpl. by rewrite Hm.
  - intros [= <-]. by rewrite app_nil_r.
Qed.

Lemma rename_loop_log here l :
  ∀ s s', for_each l (rename_body here) s = (inr tt, s') →
  stdout s'
  = (stdout s ++ map (save_message here)
                   (List.filter (λ f, is_model f || is_label f) l))%list.
Proof.
  induction l as [|f l IH]; intros s s' H.
  - injection H as <-. simpl. by rewrite app_nil_r.
  - simpl in H. unfold bind in H.
    destruct (rename_body here f s) as [[e|[]] s1] eqn:E; [done|].
    rewrite (IH _ _ H), (rename_body_log _ _ _ _ E). simpl.
    destruct (is_model f || is_label f); simpl.
    + by rewrite <- app_assoc.
    + by rewrite app_nil_r.
Qed.

(** X7: the log of the loop: when the classify-and-rename step succeeds, it
    has printed one line for every enumerated name that passes a rule, in
    enumeration order, and nothing else; the line is the model message for a
    name ending in ".tflite" and the label message otherwise. *)
Theorem rename_step_log here scan s s' :
  rename_step here scan s = (inr tt, s') →
  stdout s'
  = (stdout s ++ map (save_message here)
                   (List.filter (λ f, is_model f || is_label f) (scan (fs s))))%list.
Proof.
  unfold rename_step, listdir.
  change ((let* names := let* d := get_fs in ret (scan d)
           in for_each names (rename_body here)) s)
    with (for_each (scan (fs s)) (rename_body here) s).
  apply rename_loop_log.
Qed.

Lemma rename_step_log_witness :
  stdout (rename_step "/repo" scan_up (State two_models [])).2
  = [ "Model saved as: /repo/app/src/main/assets/ssd_mobilenet_v1.tflite";
      "Model saved as: /repo/app/src/main/assets/ssd_mobilenet_v1.tflite" ].
Proof.
  rewrite (rename_step_log "/repo" scan_up (State two_models [])
             (rename_step "/repo" scan_up (State two_models [])).2).
  - reflexivity.
  - vm_compute. reflexivity.
Defined.

(** ** Extraction *)


(** X9: extraction of members that are files directly inside the target
    directory, into a directory of regular files: it succeeds and prints
    nothing; each name then holds the bytes of the last member of that name,
    and a name that no member has holds what it held before. *)
Theorem extractall_last_member_wins ms d out :
  Forall (λ m, plain m = true) ms → regular d →
  ∃ d', extractall ms (State d out) = (inr tt, State d' out)
        ∧ ∀ g, d' !! g = match member_data ms g with
                         | Some x => Some (File (Raw x))
                         | None => d !! g
                         end.
Proof.
  intros Hp Hr. exists (unpack ms d).
  split; [by apply extractall_plain | intros g; apply unpack_lookup].
Qed.

Lemma extractall_last_member_wins_witness :
  ∃ d', extractall [ {| filename := "a.txt"; data := bytes_of "1" |};
                     {| filename := "a.txt"; data := bytes_of "2" |} ] (State ∅ [])
        = (inr tt, State d' [])
        ∧ ∀ g, d' !! g
               = match member_data [ {| filename := "a.txt"; data := bytes_of "1" |};
                                     {| filename := "a.txt"; data := bytes_of "2" |} ] g
                 with
                 | Some x => Some (File (Raw x))
                 | None => (∅ : gmap string node) !! g
                 end.
Proof.
  apply (extractall_last_member_wins
           [ {| filename := "a.txt"; data := bytes_of "1" |};
             {| filename := "a.txt"; data := bytes_of "2" |} ] ∅ []).
  - repeat constructor.
  - exact regular_empty.
Defined.

(** ** The download *)

(** X10: when the download fails, the run stops there: only the first message
    has been printed.  If the server cannot be reached the target directory
    is as [os.makedirs] left it; if the transfer breaks off, what was
    received is left in model.zip. *)
Theorem download_failure_stops here scan t d :
  makedirs t = inr d →
  run here scan Unreachable t
  = Outcome (Uncaught URLError) (Present d) [MSG_DOWNLOADING]
  ∧ ∀ partial, (∀ sub, d !! ZIP_NAME ≠ Some (Dir sub)) →
      run here scan (Interrupted partial) t
      = Outcome (Uncaught ContentTooShortError)
          (Present (<[ZIP_NAME := File (Raw partial)]> d)) [MSG_DOWNLOADING].
Proof.
  intros Hm. split.
  - by rewrite (run_unfold _ _ _ _ _ Hm).
  - intros partial Hz. rewrite (run_unfold _ _ _ _ _ Hm).
    unfold statements. cbn [exec]. unfold bind at 1. cbn [print fs stdout app].
    assert (urlretrieve (Interrupted partial) (State d [MSG_DOWNLOADING])
            = (inl ContentTooShortError,
               State (<[ZIP_NAME := File (Raw partial)]> d) [MSG_DOWNLOADING])) as Hu.
    { unfold urlretrieve. monad_unfold.
      destruct (d !! ZIP_NAME) as [[c|sub]|] eqn:E; try done. by destruct (Hz sub). }
    by rewrite (bind_err _ _ _ _ _ Hu).
Qed.

Lemma download_failure_stops_witness :
  run "/repo" scan_up Unreachable Missing
  = Outcome (Uncaught URLError) (Present ∅) [MSG_DOWNLOADING]
  ∧ ∀ partial, (∀ sub, (∅ : gmap string node) !! ZIP_NAME ≠ Some (Dir sub)) →
      run "/repo" scan_up (Interrupted partial) Missing
      = Outcome (Uncaught ContentTooShortError)
          (Present (<[ZIP_NAME := File (Raw partial)]> ∅)) [MSG_DOWNLOADING].
Proof.
  apply (download_failure_stops "/repo" scan_up Missing ∅). reflexivity.
Defined.

(** ** The label rule *)

Lemma lower_append a b : PyStr.lower (a ++ b) = (PyStr.lower a ++ PyStr.lower b)%string.
Proof.
  induction a as [|x a IH]; [done|].
  change (String (PyStr.lower_char x) (PyStr.lower (a ++ b))
          = String (PyStr.lower_char x) (PyStr.lower a ++ PyStr.lower b)).
  by rewrite IH.
Qed.

(** X11: the label rule looks at the letters of the name without their case,
    and at the suffix with it: two names that end in ".txt" and whose parts
    before the suffix differ at most in letter case are classified alike,
    and a name that ends in ".TXT" never passes the rule. *)
Theorem label_rule_letter_case r r' :
  PyStr.lower r = PyStr.lower r' →
  is_label (r ++ ".txt") = is_label (r' ++ ".txt")
  ∧ is_label (r ++ ".TXT") = false.
Proof.
  intros H. split.
  - unfold is_label. rewrite !lower_append, H.
    assert (∀ x, PyStr.endswith (x ++ ".txt") ".txt" = true) as He
      by (intros x; apply endswith_suffix; by exists x).
    by rewrite !He.
  - unfold is_label.
    destruct (PyStr.endswith (r ++ ".TXT") ".txt") eqn:E; [|by rewrite andb_false_r].
    pose proof (endswith_last_char _ _ "t"%char E eq_refl) as H1.
    rewrite (last_char_append r ".TXT" "T"%char eq_refl) in H1. done.
Qed.

Lemma label_rule_letter_case_witness :
  is_label ("COCO_Labels" ++ ".txt") = is_label ("coco_labels" ++ ".txt")
  ∧ is_label ("COCO_Labels" ++ ".TXT") = false.
Proof.
  apply (label_rule_letter_case "COCO_Labels" "coco_labels"). reflexivity.
Defined.

(** ** The output of a successful run *)

(** X12: the output of a run that exits normally is the three progress
    messages, then one save message for each name that passes a rule in the
    enumeration of the directory as the extraction left it, in enumeration
    order, then the completion message; nothing else is printed. *)
Theorem success_log here scan resp t :
  exit (run here scan resp t) = Exit0 →
  ∃ d s,
    makedirs t = inr d
    ∧ exec (before_rename resp) (State d []) = (inr tt, s)
    ∧ printed (run here scan resp t)
      = ([MSG_DOWNLOADING; MSG_DOWNLOADED; MSG_EXTRACTING]
         ++ map (save_message here)
              (List.filter (λ f, is_model f || is_label f) (scan (fs s)))
         ++ [MSG_DONE])%list.
Proof.
  destruct (makedirs t) as [e|d] eqn:Em.
  { unfold run. rewrite Em. done. }
  rewrite (run_unfold _ _ _ _ _ Em).
  destruct (exec (statements here scan resp) (State d [])) as [[e|[]] sf] eqn:Ex;
    [done|].
  simpl. intros _.
  unfold statements in Ex. cbn [exec] in Ex.
  unfold bind at 1 in Ex. cbn [print fs stdout app] in Ex. unfold bind at 1 in Ex.
  pose proof (urlretrieve_stdout resp (State d [MSG_DOWNLOADING])) as Hu.
  destruct (urlretrieve resp _) as [[e|[]] s1] eqn:Eu; [done|]. simpl in Hu.
  unfold bind at 1 in Ex. cbn [print] in Ex.
  unfold bind at 1 in Ex. cbn [print] in Ex. unfold bind at 1 in Ex.
  pose proof (extract_step_stdout
                (State (fs s1) ((stdout s1 ++ [MSG_DOWNLOADED]) ++ [MSG_EXTRACTING])))
    as He.
  destruct (extract_step _) as [[e|[]] s2] eqn:Ee; [done|]. simpl in He.
  unfold bind at 1 in Ex.
  destruct (rename_step here scan s2) as [[e|[]] s3] eqn:Er; [done|].
  unfold rename_step, listdir in Er.
  change ((let* names := let* d := get_fs in ret (scan d)
           in for_each names (rename_body here)) s2)
    with (for_each (scan (fs s2)) (rename_body here) s2) in Er.
  apply rename_loop_log in Er.
  unfold bind at 1 in Ex. pose proof (cleanup_step_stdout s3) as Hc.
  destruct (cleanup_step s3) as [[e|[]] s4]; [done|]. simpl in Hc.
  simpl in Ex. injection Ex as <-. simpl.
  exists d, s2. split; [done|]. split.
  - unfold before_rename. cbn [exec].
    unfold bind at 1. cbn [print fs stdout app].
    rewrite (bind_ok _ _ _ tt _ Eu).
    unfold bind at 1. cbn [print]. unfold bind at 1. cbn [print].
    by rewrite (bind_ok _ _ _ tt _ Ee).
  - rewrite Hc, Er, He, Hu. reflexivity.
Qed.

Lemma success_log_witness :
  ∃ d s,
    makedirs Missing = inr d
    ∧ exec (before_rename (Fetched (Zip scenario_archive))) (State d []) = (inr tt, s)
    ∧ printed (run "/repo" scan_up (Fetched (Zip scenario_archive)) Missing)
      = ([MSG_DOWNLOADING; MSG_DOWNLOADED; MSG_EXTRACTING]
         ++ map (save_message "/repo")
              (List.filter (λ f, is_model f || is_label f) (scan_up (fs s)))
         ++ [MSG_DONE])%list.
Proof.
  apply (success_log "/repo" scan_up (Fetched (Zip scenario_archive)) Missing).
  vm_compute. reflexivity.
Defined.

(** ** Which exceptions the loop can raise *)

Lemma shutil_move_present f dst s :
  is_Some (fs s !! f) →
  ((shutil_move f dst s).1 = inr tt
   ∨ (shutil_move f dst s).1 = inl ShutilError
   ∨ (shutil_move f dst s).1 = inl FileExistsError)
  ∧ ∀ f', f' ≠ f → is_Some (fs s !! f') →
          is_Some (fs (shutil_move f dst s).2 !! f').
Proof.
  intros [x Hx]. unfold shutil_move. monad_unfold. rewrite Hx.
  assert (∀ (y : node) f', f' ≠ f → is_Some (fs s !! f') →
            is_Some (<[dst := y]> (delete f (fs s)) !! f')) as Hkeep.
  { intros y f' Hne Hf'. rewrite lookup_insert. case_decide; [by eexists|].
    by rewrite lookup_delete_ne. }
  destruct (fs s !! dst) as [[c|sub]|] eqn:Ed.
  - destruct x as [c'|sub']; simpl; split; auto.
  - destruct (String.eqb f dst); [simpl; by split; auto|].
    destruct (sub !! f); simpl; split; auto.
  - destruct x as [c'|sub']; simpl; split; auto.
Qed.

Lemma rename_body_present here f s :
  is_Some (fs s !! f) →
  ((rename_body here f s).1 = inr tt
   ∨ (rename_body here f s).1 = inl ShutilError
   ∨ (rename_body here f s).1 = inl FileExistsError)
  ∧ ∀ f', f' ≠ f → is_Some (fs s !! f') →
          is_Some (fs (rename_body here f s).2 !! f').
Proof.
  intros Hf. unfold rename_body.
  destruct (is_model f); [|destruct (is_label f)]; [| |by split; auto].
  - unfold bind. destruct (shutil_move_present f MODEL_NAME s Hf) as [H1 H2].
    destruct (shutil_move f MODEL_NAME s) as [[e|[]] s1]; simpl in *; by split; auto.
  - unfold bind. destruct (shutil_move_present f LABELS_NAME s Hf) as [H1 H2].
    destruct (shutil_move f LABELS_NAME s) as [[e|[]] s1]; simpl in *; by split; auto.
Qed.

Lemma rename_loop_exceptions here l :
  ∀ s e s', NoDup l → (∀ f, f ∈ l → is_Some (fs s !! f)) →
  for_each l (rename_body here) s = (inl e, s') →
  e = ShutilError ∨ e = FileExistsError.
Proof.
  induction l as [|f l IH]; intros s e s' Hnd Hin H; [done|].
  apply NoDup_cons in Hnd as [Hfl Hnd].
  simpl in H. unfold bind in H.
  destruct (rename_body_present here f s) as [H1 H2]; [apply Hin; by left|].
  destruct (rename_body here f s) as [[e1|[]] s1]; simpl in *.
  - injection H as -> ->. destruct H1 as [?|[?|?]]; [done| |]; naive_solver.
  - apply (IH s1 e s' Hnd); [|done].
    intros f' Hf'. apply H2; [by intros -> | apply Hin; by right].
Qed.

(** X13: the classify-and-rename step, on any directory and under any
    enumeration order, never finds a listed entry missing: the only
    exceptions it can raise are [shutil.Error] (the canonical name is a
    directory that already holds an entry of the moved name) and
    [FileExistsError] (a directory is moved onto a regular file). *)
Theorem rename_step_exceptions here scan s e s' :
  enumeration scan →
  rename_step here scan s = (inl e, s') →
  e = ShutilError ∨ e = FileExistsError.
Proof.
  intros Hs. unfold rename_step, listdir.
  change ((let* names := let* d := get_fs in ret (scan d)
           in for_each names (rename_body here)) s)
    with (for_each (scan (fs s)) (rename_body here) s).
  apply rename_loop_exceptions; [by apply enumeration_NoDup|].
  intros f. by rewrite enumeration_elem.
Qed.

Lemma rename_step_exceptions_witness :
  ShutilError = ShutilError ∨ ShutilError = FileExistsError.
Proof.
  apply (rename_step_exceptions "/repo" scan_up
           (State (<["labels.txt" := File (Raw (bytes_of "a"))]>
                     (<[LABELS_NAME := Dir (<["labels.txt" := File (Raw (bytes_of "b"))]> ∅)]> ∅))
                  [])
           ShutilError
           (State (<["labels.txt" := File (Raw (bytes_of "a"))]>
                     (<[LABELS_NAME := Dir (<["labels.txt" := File (Raw (bytes_of "b"))]> ∅)]> ∅))
                  [])).
  - exact scan_up_enumeration.
  - vm_compute. reflexivity.
Defined.

(** ** Extraction never deletes *)

Lemma write_file_keeps_present path c d d' n :
  write_file path c d = inr d' → is_Some (d !! n) → is_Some (d' !! n).
Proof.
  intros H Hn. destruct (decide (head path = Some n)) as [Hh|Hh].
  - destruct path as [|p [|q rest]]; [done| |].
    + simpl in *. injection Hh as ->.
      destruct (d !! n) as [[x|sub]|]; try done;
        injection H as <-; rewrite lookup_insert_eq; by eexists.
    + rewrite write_file_deeper in H. simpl in Hh. injection Hh as ->.
      destruct (d !! n) as [[x|sub]|]; [done| |];
        destruct (write_file (q :: rest) c _) as [e|sub']; try done;
        injection H as <-; rewrite lookup_insert_eq; by eexists.
  - by rewrite (write_file_top _ _ _ _ _ H Hh).
Qed.

Lemma make_dir_keeps_present path d d' n :
  make_dir path d = inr d' → is_Some (d !! n) → is_Some (d' !! n).
Proof.
  intros H Hn. destruct (decide (head path = Some n)) as [Hh|Hh].
  - destruct path as [|p rest]; [done|]. simpl in *. injection Hh as ->.
    destruct (d !! n) as [[x|sub]|]; [done| |];
      destruct (make_dir rest _) as [e|sub']; try done;
      injection H as <-; rewrite lookup_insert_eq; by eexists.
  - by rewrite (make_dir_top _ _ _ _ H Hh).
Qed.

Lemma extract_member_keeps_present m s n :
  is_Some (fs s !! n) → is_Some (fs (extract_member m s).2 !! n).
Proof.
  intros Hn. unfold extract_member. monad_unfold.
  destruct (is_dir m).
  - destruct (make_dir _ (fs s)) as [e|d'] eqn:E; simpl; [done|].
    by apply (make_dir_keeps_present _ _ _ _ E).
  - destruct (write_file _ _ (fs s)) as [e|d'] eqn:E; simpl; [done|].
    by apply (write_file_keeps_present _ _ _ _ _ E).
Qed.

Lemma extract_damaged_keeps_present m s n :
  is_Some (fs s !! n) → is_Some (fs (extract_damaged m s).2 !! n).
Proof.
  intros Hn. unfold extract_damaged. monad_unfold.
  destruct (write_file _ _ (fs s)) as [e|d'] eqn:E; simpl; [done|].
  by apply (write_file_keeps_present _ _ _ _ _ E).
Qed.

Lemma extract_name_keeps_present z name s n :
  is_Some (fs s !! n) → is_Some (fs (extract_name z name s).2 !! n).
Proof.
  unfold extract_name, extract_entry. destruct (getinfo z name) as [e|]; [|done].
  destruct (e.2 || is_dir e.1);
    [apply extract_member_keeps_present | apply extract_damaged_keeps_present].
Qed.

(** X14: extraction adds and replaces, and never deletes: every name that is
    in the target directory before [extractall] is in it afterwards, for any
    archive, whether the extraction completes or raises part-way. *)
Theorem extractall_keeps_entries ms s n :
  is_Some (fs s !! n) → is_Some (fs (extractall ms s).2 !! n).
Proof.
  unfold extractall, extract_names.
  apply (for_each_preserves (λ s, is_Some (fs s !! n))).
  intros m s0. apply extract_name_keeps_present.
Qed.

Lemma extractall_keeps_entries_witness :
  is_Some (fs (extractall nested_archive
                 (State (<["models" := File (Raw (bytes_of "old"))]> ∅) [])).2
           !! "models").
Proof.
  apply (extractall_keeps_entries nested_archive
           (State (<["models" := File (Raw (bytes_of "old"))]> ∅) []) "models").
  simpl. rewrite lookup_insert_eq. by eexists.
Defined.

(** ** Content that is not a valid archive *)









(** ** Where extraction writes *)














